(** * HaliSoft subscription API: subscription gate, quota gate, usage recorder,
      PayPal webhook ingestion and the period rollover job.

    A shallow embedding of the TypeScript services over an explicit model of
    the Prisma store.  Each [async] function becomes a computation in a small
    state-and-exception monad over [Store]; every [await prisma.x.y(...)]
    becomes one primitive of that monad.

    Conventions.
    - Primary keys.  Prisma generates uuid keys and the modelled code never
      deletes a row, so a row's position in its table plays the role of its
      [id]; foreign keys are positions as well.
    - Time.  A [Date] is a number of milliseconds.  Every [new Date()] read
      during one request or one job run is the instant [now] handed to it.
    - [logger] calls have no effect on the store and are left out, except
      where reading their arguments can fail ([event.resource.id]).
    - [emailService] is an outbound collaborator: a mail that reaches
      [sendEmail] is recorded in the store's [outbox].
    - Row order.  A [findFirst] without [orderBy] is modelled as the first
      matching row in table order.  The database promises no order, so a
      statement about the row found is made on the result of the lookup, or
      for a table in which one row matches.
    - Columns.  [value Int] is a 32-bit integer; a [paypalSubscriptionId]
      holds a PayPal id or [null], never the empty string. *)

From Stdlib Require Import ZArith QArith Lia Bool.
From stdpp Require Import base option list strings.

Local Open Scope string_scope.
Local Open Scope Z_scope.
Local Open Scope list_scope.

(** ** Data model (prisma/schema.prisma, migration.sql) *)

Definition Date := Z.

(** [CREATE TYPE "SubscriptionStatus" AS ENUM (...)] *)
Inductive SubscriptionStatus :=
| PENDING | ACTIVE | CANCELLED | SUSPENDED | EXPIRED.

Definition status_eqb (a b : SubscriptionStatus) : bool :=
  match a, b with
  | PENDING, PENDING | ACTIVE, ACTIVE | CANCELLED, CANCELLED
  | SUSPENDED, SUSPENDED | EXPIRED, EXPIRED => true
  | _, _ => false
  end.

Record User := mkUser {
  user_email : string;
}.

Record SubscriptionPlan := mkPlan {
  plan_name : string;
  plan_basePrice : option Z;          (* Decimal(10,2), in cents *)
  plan_billingPeriod : string;        (* 'monthly' | 'yearly' *)
}.

Record AIComponent := mkComponent {
  comp_slug : string;                 (* @unique *)
  comp_name : string;
  comp_isActive : bool;
}.

Record PlanFeature := mkFeature {
  pf_planId : nat;
  pf_aiComponentId : nat;
  pf_enabled : bool;
  pf_limitValue : option Z;           (* Int?, null = unlimited *)
  pf_limitType : string;
}.

Record Subscription := mkSubscription {
  sub_userId : nat;
  sub_planId : nat;
  sub_paypalSubscriptionId : option string;   (* @unique *)
  sub_status : SubscriptionStatus;
  sub_currentPeriodStart : option Date;
  sub_currentPeriodEnd : option Date;
  sub_cancelledAt : option Date;
  sub_cancellationReason : option string;
  sub_cancelAtPeriodEnd : bool;
}.

Record UsageTracking := mkUsage {
  ut_subscriptionId : nat;
  ut_aiComponentId : nat;
  ut_metricType : string;
  ut_value : Z;
  ut_periodStart : Date;
  ut_periodEnd : Date;
}.

(** [paypal_events], with [CREATE UNIQUE INDEX "paypal_events_event_id_key"]. *)
Record PayPalEvent := mkEvent {
  ev_eventType : string;
  ev_eventId : string;
  ev_processed : bool;
  ev_processedAt : option Date;
  ev_errorMessage : option string;
}.

(** What [emailService] was asked to send, one constructor per public method. *)
Inductive Email :=
| WelcomeEmail (userId : nat) (planName : string)
| QuotaWarningEmail (userId : nat) (componentName : string)
    (used limit percentage : Z)
| QuotaExceededEmail (userId : nat) (componentName : string) (used limit : Z)
| MonthlyUsageReport (userId : nat)
    (usageData : list (string * (Z * option Z)))
| PaymentReceipt (userId : nat) (amount : string) (planName : string)
| PaymentFailedEmail (userId : nat)
| CancellationEmail (userId : nat) (planName : string) (immediate : bool).

Record Store := mkStore {
  users : list User;
  subscriptionPlans : list SubscriptionPlan;
  aIComponents : list AIComponent;
  planFeatures : list PlanFeature;
  subscriptions : list Subscription;
  usageTracking : list UsageTracking;
  payPalEvents : list PayPalEvent;
  outbox : list Email;
}.

Definition set_subscriptions (f : list Subscription → list Subscription)
    (st : Store) : Store :=
  mkStore (users st) (subscriptionPlans st) (aIComponents st) (planFeatures st)
    (f (subscriptions st)) (usageTracking st) (payPalEvents st) (outbox st).

Definition set_usageTracking (f : list UsageTracking → list UsageTracking)
    (st : Store) : Store :=
  mkStore (users st) (subscriptionPlans st) (aIComponents st) (planFeatures st)
    (subscriptions st) (f (usageTracking st)) (payPalEvents st) (outbox st).

Definition set_payPalEvents (f : list PayPalEvent → list PayPalEvent)
    (st : Store) : Store :=
  mkStore (users st) (subscriptionPlans st) (aIComponents st) (planFeatures st)
    (subscriptions st) (usageTracking st) (f (payPalEvents st)) (outbox st).

Definition set_outbox (f : list Email → list Email) (st : Store) : Store :=
  mkStore (users st) (subscriptionPlans st) (aIComponents st) (planFeatures st)
    (subscriptions st) (usageTracking st) (payPalEvents st) (f (outbox st)).

(** ** The monad of [async] functions: store passing, with exceptions.
    A write that happened before a [throw] stays written, as in the source,
    which uses no transaction. *)

Inductive Outcome (A : Type) :=
| Ok (a : A)
| Thrown (message : string).
Arguments Ok {A} a.
Arguments Thrown {A} message.

Definition M (A : Type) : Type := Store → Outcome A * Store.

Definition ret {A} (a : A) : M A := λ st, (Ok a, st).

Definition bind {A B} (m : M A) (k : A → M B) : M B :=
  λ st, match m st with
        | (Ok a, st') => k a st'
        | (Thrown e, st') => (Thrown e, st')
        end.

Definition throw {A} (message : string) : M A := λ st, (Thrown message, st).

(** [try { body } catch (error) { handler }] *)
Definition tryCatch {A} (body : M A) (handler : string → M A) : M A :=
  λ st, match body st with
        | (Ok a, st') => (Ok a, st')
        | (Thrown e, st') => handler e st'
        end.

Definition gets {A} (f : Store → A) : M A := λ st, (Ok (f st), st).
Definition modify (f : Store → Store) : M unit := λ st, (Ok tt, f st).

Declare Scope async_scope.
Delimit Scope async_scope with async.
Notation "'let*' x ':=' m 'in' k" := (bind m (λ x, k))
  (at level 10, x pattern, m at level 100, k at level 200) : async_scope.
Notation "'await' m 'in' k" := (bind m (λ _, k))
  (at level 10, m at level 100, k at level 200) : async_scope.
Local Open Scope async_scope.

(** [for (const x of xs) { body x }] *)
Fixpoint forEach {A} (xs : list A) (body : A → M unit) : M unit :=
  match xs with
  | [] => ret tt
  | x :: rest => await body x in forEach rest body
  end.

(** ** Table primitives *)

(** First row satisfying [p], with its position: [findFirst] without
    [orderBy]. *)
Fixpoint find_from {A} (p : A → bool) (i : nat) (rows : list A)
    : option (nat * A) :=
  match rows with
  | [] => None
  | r :: rest => if p r then Some (i, r) else find_from p (S i) rest
  end.

Definition find_first {A} (p : A → bool) (rows : list A) : option (nat * A) :=
  find_from p 0 rows.

(** All rows satisfying [p], with their positions: [findMany]. *)
Fixpoint filter_from {A} (p : A → bool) (i : nat) (rows : list A)
    : list (nat * A) :=
  match rows with
  | [] => []
  | r :: rest =>
      if p r then (i, r) :: filter_from p (S i) rest
      else filter_from p (S i) rest
  end.

Definition find_many {A} (p : A → bool) (rows : list A) : list (nat * A) :=
  filter_from p 0 rows.

Definition opt_eqb {A} (eqb : A → A → bool) (a b : option A) : bool :=
  match a, b with
  | Some x, Some y => eqb x y
  | None, None => true
  | _, _ => false
  end.

(** ** Prisma client calls *)

(** [prisma.subscription.findUnique({ where: { id } })] *)
Definition subscription_findUnique (id : nat) : M (option Subscription) :=
  gets (λ st, subscriptions st !! id).

(** [prisma.subscription.findUnique / findFirst({ where: { paypalSubscriptionId } })] *)
Definition subscriptionByPaypalId (paypalSubscriptionId : string) (st : Store)
    : option (nat * Subscription) :=
  find_first
    (λ s, opt_eqb String.eqb (sub_paypalSubscriptionId s)
            (Some paypalSubscriptionId))
    (subscriptions st).

Definition subscription_findByPaypalId (paypalSubscriptionId : string)
    : M (option (nat * Subscription)) :=
  gets (subscriptionByPaypalId paypalSubscriptionId).

(** [prisma.subscription.findFirst({ where: { userId, status: 'ACTIVE' } })] *)
Definition activeSubscriptionOf (userId : nat) (st : Store)
    : option (nat * Subscription) :=
  find_first
    (λ s, Nat.eqb (sub_userId s) userId && status_eqb (sub_status s) ACTIVE)
    (subscriptions st).

Definition subscription_findFirstActive (userId : nat)
    : M (option (nat * Subscription)) :=
  gets (activeSubscriptionOf userId).

(** [prisma.subscription.update({ where: { id }, data })]; Prisma rejects the
    update of a row that does not exist. *)
Definition subscription_update (id : nat) (data : Subscription → Subscription)
    : M Subscription :=
  λ st, match subscriptions st !! id with
        | Some s =>
            (Ok (data s), set_subscriptions (λ t, <[id := data s]> t) st)
        | None => (Thrown "Record to update not found", st)
        end.

(** [include: { plan: true }]; the foreign key makes the plan exist. *)
Definition include_plan (planId : nat) : M SubscriptionPlan :=
  let* plan := gets (λ st, subscriptionPlans st !! planId) in
  match plan with
  | Some p => ret p
  | None => throw "Foreign key constraint failed: plan"
  end.

(** A plan feature read with [include: { aiComponent: true }]. *)
Record FeatureWithComponent := mkFeatureWith {
  fw_feature : PlanFeature;
  fw_aiComponent : AIComponent;
}.

Definition join_aiComponent (st : Store) (row : nat * PlanFeature)
    : option FeatureWithComponent :=
  c ← aIComponents st !! pf_aiComponentId row.2;
  Some (mkFeatureWith row.2 c).

(** [plan: { include: { features: { include: { aiComponent: true } } } }]:
    the features of plan [planId], in table order. *)
Definition featuresOfPlan (planId : nat) (st : Store)
    : list FeatureWithComponent :=
  omap (join_aiComponent st)
    (find_many (λ f, Nat.eqb (pf_planId f) planId) (planFeatures st)).

Definition plan_features (planId : nat) : M (list FeatureWithComponent) :=
  gets (featuresOfPlan planId).

(** [prisma.aIComponent.findUnique({ where: { slug } })] *)
Definition componentBySlug (slug : string) (st : Store)
    : option (nat * AIComponent) :=
  find_first (λ c, String.eqb (comp_slug c) slug) (aIComponents st).

Definition aIComponent_findUnique (slug : string)
    : M (option (nat * AIComponent)) :=
  gets (componentBySlug slug).

(** [prisma.planFeature.findFirst({ where: { planId, aiComponentId,
    enabled: true } })] *)
Definition enabledFeature (planId aiComponentId : nat) (st : Store)
    : option (nat * PlanFeature) :=
  find_first
    (λ f, Nat.eqb (pf_planId f) planId
          && Nat.eqb (pf_aiComponentId f) aiComponentId
          && pf_enabled f)
    (planFeatures st).

Definition planFeature_findFirst (planId aiComponentId : nat)
    : M (option (nat * PlanFeature)) :=
  gets (enabledFeature planId aiComponentId).

(** [prisma.usageTracking.findFirst({ where: { subscriptionId, aiComponentId,
    periodStart, periodEnd } })] *)
Definition usage_matches (subscriptionId aiComponentId : nat)
    (periodStart periodEnd : Date) (u : UsageTracking) : bool :=
  Nat.eqb (ut_subscriptionId u) subscriptionId
  && Nat.eqb (ut_aiComponentId u) aiComponentId
  && Z.eqb (ut_periodStart u) periodStart
  && Z.eqb (ut_periodEnd u) periodEnd.

Definition usageRow (subscriptionId aiComponentId : nat)
    (periodStart periodEnd : Date) (st : Store)
    : option (nat * UsageTracking) :=
  find_first (usage_matches subscriptionId aiComponentId periodStart periodEnd)
    (usageTracking st).

Definition usageTracking_findFirst (subscriptionId aiComponentId : nat)
    (periodStart periodEnd : Date) : M (option (nat * UsageTracking)) :=
  gets (usageRow subscriptionId aiComponentId periodStart periodEnd).

(** The column [value Int] is a 32-bit INTEGER: the Prisma client refuses
    an [Int] argument outside this range, and the database refuses an
    update whose result leaves it ("integer out of range"). *)
Definition int32 (z : Z) : bool :=
  (-2147483648 <=? z) && (z <=? 2147483647).

(** [prisma.usageTracking.update({ where: { id },
    data: { value: { increment: amount } } })] *)
Definition increment_value (amount : Z) (u : UsageTracking) : UsageTracking :=
  mkUsage (ut_subscriptionId u) (ut_aiComponentId u) (ut_metricType u)
    (ut_value u + amount) (ut_periodStart u) (ut_periodEnd u).

Definition usageTracking_increment (id : nat) (amount : Z) : M unit :=
  λ st, match usageTracking st !! id with
        | Some u =>
            if int32 amount && int32 (ut_value u + amount) then
              (Ok tt,
               set_usageTracking
                 (λ t, <[id := increment_value amount u]> t) st)
            else (Thrown "Value out of range for the type integer", st)
        | None => (Thrown "Record to update not found", st)
        end.

(** [prisma.usageTracking.create({ data })] *)
Definition usageTracking_create (row : UsageTracking) : M unit :=
  if int32 (ut_value row) then modify (set_usageTracking (λ t, t ++ [row]))
  else throw "Value out of range for the type integer".

(** [prisma.usageTracking.createMany({ data })] *)
Definition usageTracking_createMany (rows : list UsageTracking) : M unit :=
  modify (set_usageTracking (λ t, t ++ rows)).

(** [prisma.payPalEvent.create({ data })].  The column carries a unique
    index (schema: [eventId String @unique]; migration:
    [CREATE UNIQUE INDEX "paypal_events_event_id_key" ON
    "paypal_events"("event_id")]), so the insert of an [eventId] that is
    already in the table is rejected with an exception. *)
Definition eventId_recorded (eventId : string) (st : Store) : bool :=
  existsb (λ e, String.eqb (ev_eventId e) eventId) (payPalEvents st).

Definition payPalEvent_create (row : PayPalEvent) : M unit :=
  λ st, if eventId_recorded (ev_eventId row) st
        then (Thrown "Unique constraint failed on the fields: (`eventId`)", st)
        else (Ok tt, set_payPalEvents (λ t, t ++ [row]) st).

(** [prisma.payPalEvent.updateMany({ where: { eventId }, data })] *)
Definition payPalEvent_updateMany (eventId : string)
    (data : PayPalEvent → PayPalEvent) : M unit :=
  modify (set_payPalEvents
    (map (λ e, if String.eqb (ev_eventId e) eventId then data e else e))).

(** ** EmailService *)

Definition getUserEmail (userId : nat) : M string :=
  let* user := gets (λ st, users st !! userId) in
  match user with
  | Some u => ret (user_email u)
  | None => throw "User not found"
  end.

(** Every public method reads the address and then hands one mail to
    [sendEmail], which swallows transport failures. *)
Definition send (mail : Email) (userId : nat) : M unit :=
  await getUserEmail userId in
  modify (set_outbox (λ o, o ++ [mail])).

Definition sendWelcomeEmail (userId : nat) (planName : string) : M unit :=
  send (WelcomeEmail userId planName) userId.

Definition sendQuotaWarningEmail (userId : nat) (componentName : string)
    (used limit percentage : Z) : M unit :=
  send (QuotaWarningEmail userId componentName used limit percentage) userId.

Definition sendQuotaExceededEmail (userId : nat) (componentName : string)
    (used limit : Z) : M unit :=
  send (QuotaExceededEmail userId componentName used limit) userId.

Definition sendMonthlyUsageReport (userId : nat)
    (usageData : list (string * (Z * option Z))) : M unit :=
  send (MonthlyUsageReport userId usageData) userId.

Definition sendPaymentReceipt (userId : nat) (amount planName : string)
    : M unit :=
  send (PaymentReceipt userId amount planName) userId.

Definition sendPaymentFailedEmail (userId : nat) : M unit :=
  send (PaymentFailedEmail userId) userId.

Definition sendCancellationEmail (userId : nat) (planName : string)
    (immediate : bool) : M unit :=
  send (CancellationEmail userId planName immediate) userId.

(** ** UsageTrackingService (src/services/UsageTrackingService.ts) *)

Definition initializeUsageForSubscription (subscriptionId : nat)
    (periodStart periodEnd : Date) : M unit :=
  let* subscription := subscription_findUnique subscriptionId in
  match subscription with
  | None => throw "Subscription not found"
  | Some sub =>
      let* features := plan_features (sub_planId sub) in
      let usageEntries :=
        map (λ feature,
               mkUsage subscriptionId
                 (pf_aiComponentId (fw_feature feature))
                 (pf_limitType (fw_feature feature))
                 0 periodStart periodEnd)
            (List.filter (λ f, pf_enabled (fw_feature f)) features) in
      match usageEntries with
      | [] => ret tt
      | _ :: _ => usageTracking_createMany usageEntries
      end
  end.

(** [usage?.value || 0] *)
Definition value_or_zero (usage : option (nat * UsageTracking)) : Z :=
  match usage with
  | Some (_, u) => if ut_value u =? 0 then 0 else ut_value u
  | None => 0
  end.

(** A [null] handed to the filter of the required column [periodEnd] is
    refused by the Prisma client. *)
Definition getComponentUsage (subscriptionId aiComponentId : nat) : M Z :=
  let* subscription := subscription_findUnique subscriptionId in
  match subscription with
  | None => ret 0
  | Some sub =>
      match sub_currentPeriodStart sub with
      | None => ret 0
      | Some periodStart =>
          match sub_currentPeriodEnd sub with
          | None => throw "Argument periodEnd must not be null"
          | Some periodEnd =>
              let* usage :=
                usageTracking_findFirst subscriptionId aiComponentId
                  periodStart periodEnd in
              ret (value_or_zero usage)
          end
      end
  end.

(** [(usage / limit) * 100].  The source computes in binary64; the operands
    are 32-bit [Int] columns, for which the comparisons of this value with
    80, 90 and 100 agree with the exact ones: the quotients 4/5, 9/10 and 1
    round to products 80, 90 and 100, and any other quotient is further from
    these boundaries than the rounding error.  The model is the exact
    rational. *)
Definition percentage_of (usage limit : Z) : Q :=
  (inject_Z usage / inject_Z limit * inject_Z 100)%Q.

Definition at_least (threshold : Z) (percentage : Q) : bool :=
  Qle_bool (inject_Z threshold) percentage.

Definition checkQuotaWarnings (subscriptionId aiComponentId : nat) : M unit :=
  let* subscription := subscription_findUnique subscriptionId in
  match subscription with
  | None => ret tt
  | Some sub =>
      let* features := plan_features (sub_planId sub) in
      (* features: { where: { aiComponentId } } *)
      match List.filter
              (λ f, Nat.eqb (pf_aiComponentId (fw_feature f)) aiComponentId)
              features with
      | [] => ret tt
      | feature :: _ =>
          match pf_limitValue (fw_feature feature) with
          | None => ret tt                                   (* Unlimited *)
          | Some limitValue =>
              if limitValue =? 0 then ret tt                 (* !0 *)
              else
                let* usage := getComponentUsage subscriptionId aiComponentId in
                let percentage := percentage_of usage limitValue in
                let componentName := comp_name (fw_aiComponent feature) in
                if at_least 100 percentage then
                  sendQuotaExceededEmail (sub_userId sub) componentName
                    usage limitValue
                else if at_least 90 percentage then
                  sendQuotaWarningEmail (sub_userId sub) componentName
                    usage limitValue 90
                else if at_least 80 percentage then
                  sendQuotaWarningEmail (sub_userId sub) componentName
                    usage limitValue 80
                else ret tt
          end
      end
  end.

(** [subscription.currentPeriodStart!] and [currentPeriodEnd!] go into a
    filter and into a required column: a [null] there is refused by the
    Prisma client. *)
Definition incrementUsage (subscriptionId : nat) (aiComponentSlug : string)
    (amount : Z) : M unit :=
  let* subscription := subscription_findUnique subscriptionId in
  match subscription with
  | None => throw "Subscription not found"
  | Some sub =>
      let* aiComponent := aIComponent_findUnique aiComponentSlug in
      match aiComponent with
      | None => throw "AI component not found"
      | Some (aiComponentId, _) =>
          match sub_currentPeriodStart sub, sub_currentPeriodEnd sub with
          | Some periodStart, Some periodEnd =>
              let* existingUsage :=
                usageTracking_findFirst subscriptionId aiComponentId
                  periodStart periodEnd in
              await
                match existingUsage with
                | Some (id, _) => usageTracking_increment id amount
                | None =>
                    usageTracking_create
                      (mkUsage subscriptionId aiComponentId "count" amount
                         periodStart periodEnd)
                end in
              checkQuotaWarnings subscriptionId aiComponentId
          | _, _ => throw "Argument periodStart must not be null"
          end
      end
  end.

(** Whether the counter write of [incrementUsage] is accepted: the amount
    and the new value fit the column. *)
Definition fits (previousValue amount : Z) : bool :=
  int32 amount && int32 (previousValue + amount).

(** The store right after an accepted counter write of [incrementUsage]
    ("Find or create usage tracking entry for current period"), before
    [checkQuotaWarnings] runs. *)
Definition counted (subscriptionId aiComponentId : nat)
    (periodStart periodEnd : Date) (amount : Z) (st : Store) : Store :=
  match usageRow subscriptionId aiComponentId periodStart periodEnd st with
  | Some (row, u) =>
      set_usageTracking (λ t, <[row := increment_value amount u]> t) st
  | None =>
      set_usageTracking
        (λ t, t ++ [mkUsage subscriptionId aiComponentId "count" amount
                      periodStart periodEnd])
        st
  end.

Record UsageSummaryEntry := mkSummaryEntry {
  us_used : Z;
  us_limit : option Z;
  us_percentage : Q;
  us_resetDate : option Date;
}.

(** [summary[key] = entry] on a JS object: an existing key keeps its place. *)
Fixpoint object_set {V} (key : string) (entry : V) (obj : list (string * V))
    : list (string * V) :=
  match obj with
  | [] => [(key, entry)]
  | (k, v) :: rest =>
      if String.eqb k key then (k, entry) :: rest
      else (k, v) :: object_set key entry rest
  end.

Definition getCurrentPeriodUsage (now : Date) (subscriptionId : nat)
    : M (list (string * UsageSummaryEntry)) :=
  let* subscription := subscription_findUnique subscriptionId in
  match subscription with
  | None => throw "Subscription not found"
  | Some sub =>
      let* features := plan_features (sub_planId sub) in
      let* usageRows :=
        gets (λ st,
          find_many
            (λ u, Nat.eqb (ut_subscriptionId u) subscriptionId
                  && (now - 32 * 24 * 60 * 60 * 1000 <=? ut_periodStart u))
            (usageTracking st)) in
      ret (fold_left
             (λ summary feature,
                if negb (pf_enabled (fw_feature feature)) then summary
                else
                  let usage :=
                    find_first
                      (λ u, Nat.eqb (ut_aiComponentId u)
                              (pf_aiComponentId (fw_feature feature))
                            && opt_eqb Z.eqb (Some (ut_periodStart u))
                                 (sub_currentPeriodStart sub))
                      (map snd usageRows) in
                  let used := value_or_zero usage in
                  let limit := pf_limitValue (fw_feature feature) in
                  let percentage :=
                    match limit with
                    | Some l => if l =? 0 then 0%Q else percentage_of used l
                    | None => 0%Q
                    end in
                  object_set (comp_slug (fw_aiComponent feature))
                    (mkSummaryEntry used limit percentage
                       (sub_currentPeriodEnd sub))
                    summary)
             features [])
  end.

(** [resetQuotas] only reads and logs. *)
Definition resetQuotas (subscriptionId : nat) : M unit :=
  let* subscription := subscription_findUnique subscriptionId in
  ret tt.

(** ** Express middleware (src/middleware/subscription.ts,
       src/middleware/quotaEnforcement.ts) *)

(** [req.subscription]: the subscription row with [include: { plan: true }]. *)
Record AttachedSubscription := mkAttached {
  as_id : nat;
  as_row : Subscription;
  as_plan : SubscriptionPlan;
}.

(** [req.componentQuota] *)
Record ComponentQuota := mkQuota {
  cq_used : Z;
  cq_limit : option Z;
  cq_remaining : option Z;
}.

Record Request := mkRequest {
  req_user : option nat;                       (* req.user.id *)
  req_subscription : option AttachedSubscription;
  req_componentQuota : option ComponentQuota;
}.

(** The JSON bodies the middleware sends, one constructor per literal. *)
Inductive Body :=
| AuthenticationRequired
| NoActiveSubscription                 (* code: 'NO_SUBSCRIPTION' *)
| SubscriptionExpired                  (* code: 'SUBSCRIPTION_EXPIRED' *)
| FailedToVerifySubscription
| ActiveSubscriptionRequired           (* code: 'NO_SUBSCRIPTION' *)
| ComponentNotFoundOrInactive
| FeatureNotAvailable                  (* code: 'FEATURE_NOT_AVAILABLE' *)
    (componentName currentPlan : string) (requiredPlan : option string)
| QuotaExceeded                        (* code: 'QUOTA_EXCEEDED' *)
    (component : string) (current limit : Z) (resetDate : option Date)
| FailedToCheckQuota.

Definition body_code (b : Body) : option string :=
  match b with
  | NoActiveSubscription | ActiveSubscriptionRequired => Some "NO_SUBSCRIPTION"
  | SubscriptionExpired => Some "SUBSCRIPTION_EXPIRED"
  | FeatureNotAvailable _ _ _ => Some "FEATURE_NOT_AVAILABLE"
  | QuotaExceeded _ _ _ _ => Some "QUOTA_EXCEEDED"
  | _ => None
  end.

(** What a middleware did with the request: [next()] or
    [res.status(status).json(body)]. *)
Inductive Reply :=
| Next
| Respond (status : Z) (body : Body).

Definition checkSubscription (now : Date) (req : Request)
    : M (Reply * Request) :=
  tryCatch
    (match req_user req with
     | None => ret (Respond 401 AuthenticationRequired, req)
     | Some userId =>
         let* found := subscription_findFirstActive userId in
         match found with
         | None => ret (Respond 403 NoActiveSubscription, req)
         | Some (id, sub) =>
             let* plan := include_plan (sub_planId sub) in
             let expired :=
               match sub_currentPeriodEnd sub with
               | Some periodEnd => periodEnd <? now        (* new Date() > end *)
               | None => false
               end in
             if expired then ret (Respond 403 SubscriptionExpired, req)
             else
               ret (Next,
                    mkRequest (req_user req) (Some (mkAttached id sub plan))
                      (req_componentQuota req))
         end
     end)
    (λ _, ret (Respond 500 FailedToVerifySubscription, req)).

(** [orderBy: { plan: { basePrice: 'asc' } }], then [availablePlans[0]]:
    the cheapest plan, [NULL] prices last, the earlier row on a tie. *)
Definition price_lt (a b : option Z) : bool :=
  match a, b with
  | Some x, Some y => x <? y
  | Some _, None => true
  | None, _ => false
  end.

Definition cheapest (plans : list SubscriptionPlan) : option SubscriptionPlan :=
  fold_left
    (λ best p,
       match best with
       | None => Some p
       | Some b =>
           if price_lt (plan_basePrice p) (plan_basePrice b) then Some p
           else Some b
       end)
    plans None.

Definition minPlanFor (aiComponentId : nat) : M (option SubscriptionPlan) :=
  gets (λ st,
    cheapest
      (omap (λ row : nat * PlanFeature, subscriptionPlans st !! pf_planId row.2)
         (find_many
            (λ f, Nat.eqb (pf_aiComponentId f) aiComponentId && pf_enabled f)
            (planFeatures st)))).

Definition with_componentQuota (req : Request) (q : ComponentQuota) : Request :=
  mkRequest (req_user req) (req_subscription req) (Some q).

Definition enforceQuota (aiComponentSlug : string) (req : Request)
    : M (Reply * Request) :=
  tryCatch
    (match req_subscription req with
     | None => ret (Respond 403 ActiveSubscriptionRequired, req)
     | Some subscription =>
         let* aiComponent := aIComponent_findUnique aiComponentSlug in
         match aiComponent with
         | None => ret (Respond 404 ComponentNotFoundOrInactive, req)
         | Some (aiComponentId, component) =>
             if negb (comp_isActive component) then
               ret (Respond 404 ComponentNotFoundOrInactive, req)
             else
               let* planFeature :=
                 planFeature_findFirst (sub_planId (as_row subscription))
                   aiComponentId in
               match planFeature with
               | None =>
                   let* minPlan := minPlanFor aiComponentId in
                   ret (Respond 403
                          (FeatureNotAvailable (comp_name component)
                             (plan_name (as_plan subscription))
                             (plan_name <$> minPlan)),
                        req)
               | Some (_, feature) =>
                   match pf_limitValue feature with
                   | Some limitValue =>
                       let* currentUsage :=
                         getComponentUsage (as_id subscription) aiComponentId in
                       if limitValue <=? currentUsage then
                         ret (Respond 429
                                (QuotaExceeded (comp_name component)
                                   currentUsage limitValue
                                   (sub_currentPeriodEnd (as_row subscription))),
                              req)
                       else
                         ret (Next,
                              with_componentQuota req
                                (mkQuota currentUsage (Some limitValue)
                                   (Some (limitValue - currentUsage))))
                   | None =>
                       let* currentUsage :=
                         getComponentUsage (as_id subscription) aiComponentId in
                       ret (Next,
                            with_componentQuota req
                              (mkQuota currentUsage None None))
                   end
               end
         end
     end)
    (λ _, ret (Respond 500 FailedToCheckQuota, req)).

(** [trackUsage] starts the increment and does not await it
    ("don't block response"): [next()] is called at once.  The result is
    the reply together with the tasks left running, here the increment with
    its [.catch] that only logs; they run at some later point, on the store
    of that time. *)
Definition trackUsage (aiComponentSlug : string) (amount : Z) (req : Request)
    : M (Reply * list (M unit)) :=
  match req_subscription req with
  | None => ret (Next, [])
  | Some subscription =>
      let detached :=
        tryCatch
          (incrementUsage (as_id subscription) aiComponentSlug amount)
          (λ _, ret tt) in
      ret (Next, [detached])
  end.

(** The guard chain of every metered route (src/routes/ai-components.ts):
    [checkSubscription, enforceQuota(slug)]. *)
Definition admission (now : Date) (aiComponentSlug : string) (req : Request)
    : M (Reply * Request) :=
  let* checked := checkSubscription now req in
  match checked with
  | (Next, req') => enforceQuota aiComponentSlug req'
  | (Respond status body, req') => ret (Respond status body, req')
  end.

(** ** Calendar arithmetic of date-fns, an external library. *)
Class DateFns := {
  addMonths : Date → Z → Date;
  addYears : Date → Z → Date;
  startOfDay : Date → Date;
  endOfDay : Date → Date;
}.

Section Services.
Context `{DateFns}.

(** [billingPeriod === 'yearly' ? addYears(start, 1) : addMonths(start, 1)] *)
Definition periodEndFor (billingPeriod : string) (periodStart : Date) : Date :=
  if String.eqb billingPeriod "yearly" then addYears periodStart 1
  else addMonths periodStart 1.

Definition set_period (status : option SubscriptionStatus)
    (periodStart periodEnd : Date) (s : Subscription) : Subscription :=
  mkSubscription (sub_userId s) (sub_planId s) (sub_paypalSubscriptionId s)
    (default (sub_status s) status)
    (Some periodStart) (Some periodEnd)
    (sub_cancelledAt s) (sub_cancellationReason s) (sub_cancelAtPeriodEnd s).

Definition set_status (status : SubscriptionStatus) (s : Subscription)
    : Subscription :=
  mkSubscription (sub_userId s) (sub_planId s) (sub_paypalSubscriptionId s)
    status (sub_currentPeriodStart s) (sub_currentPeriodEnd s)
    (sub_cancelledAt s) (sub_cancellationReason s) (sub_cancelAtPeriodEnd s).

Definition set_cancelled (now : Date) (s : Subscription) : Subscription :=
  mkSubscription (sub_userId s) (sub_planId s) (sub_paypalSubscriptionId s)
    CANCELLED (sub_currentPeriodStart s) (sub_currentPeriodEnd s)
    (Some now) (sub_cancellationReason s) (sub_cancelAtPeriodEnd s).

(** ** SubscriptionService (src/services/SubscriptionService.ts) *)

(** A call to the PayPal REST API; [reachable] says whether it answers. *)
Definition paypalRequest (reachable : bool) : M unit :=
  if reachable then ret tt else throw "PayPal API error".

Definition activateSubscription (now : Date) (paypalReachable : bool)
    (paypalSubscriptionId : string) : M Subscription :=
  let* subscription := subscription_findByPaypalId paypalSubscriptionId in
  match subscription with
  | None => throw "Subscription not found"
  | Some (id, sub) =>
      let* plan := include_plan (sub_planId sub) in
      await paypalRequest paypalReachable in        (* getSubscription *)
      let currentPeriodStart := now in
      let currentPeriodEnd :=
        periodEndFor (plan_billingPeriod plan) currentPeriodStart in
      let* updatedSubscription :=
        subscription_update id
          (set_period (Some ACTIVE) currentPeriodStart currentPeriodEnd) in
      await initializeUsageForSubscription id currentPeriodStart
              currentPeriodEnd in
      await sendWelcomeEmail (sub_userId sub) (plan_name plan) in
      ret updatedSubscription
  end.

(** [data: { status: cancelImmediately ? 'CANCELLED' : subscription.status,
    cancelledAt: new Date(), cancellationReason: reason,
    cancelAtPeriodEnd: !cancelImmediately }]; an [undefined] reason leaves
    the column as it is. *)
Definition cancel_data (now : Date) (previous : SubscriptionStatus)
    (reason : option string) (cancelImmediately : bool) (s : Subscription)
    : Subscription :=
  mkSubscription (sub_userId s) (sub_planId s) (sub_paypalSubscriptionId s)
    (if cancelImmediately then CANCELLED else previous)
    (sub_currentPeriodStart s) (sub_currentPeriodEnd s)
    (Some now)
    (match reason with Some r => Some r | None => sub_cancellationReason s end)
    (negb cancelImmediately).

Definition cancelSubscription (now : Date) (paypalReachable : bool)
    (subscriptionId : nat) (reason : option string) (cancelImmediately : bool)
    : M Subscription :=
  let* subscription := subscription_findUnique subscriptionId in
  match subscription with
  | None => throw "Subscription not found"
  | Some sub =>
      let* plan := include_plan (sub_planId sub) in
      await
        match sub_paypalSubscriptionId sub with
        | Some _ => paypalRequest paypalReachable
        | None => ret tt
        end in
      let* updatedSubscription :=
        subscription_update subscriptionId
          (cancel_data now (sub_status sub) reason cancelImmediately) in
      await sendCancellationEmail (sub_userId sub) (plan_name plan)
              cancelImmediately in
      ret updatedSubscription
  end.

Record FeatureAccess := mkAccess {
  hasAccess : bool;
  fa_limit : option Z;
  fa_used : option Z;
}.

Definition hasFeatureAccess (subscriptionId : nat) (aiComponentSlug : string)
    : M FeatureAccess :=
  let* subscription := subscription_findUnique subscriptionId in
  match subscription with
  | None => ret (mkAccess false None None)
  | Some sub =>
      if negb (status_eqb (sub_status sub) ACTIVE) then
        ret (mkAccess false None None)
      else
        let* features := plan_features (sub_planId sub) in
        match List.find
                (λ f, String.eqb (comp_slug (fw_aiComponent f)) aiComponentSlug
                      && pf_enabled (fw_feature f))
                features with
        | None => ret (mkAccess false None None)
        | Some feature =>
            let* usage :=
              getComponentUsage subscriptionId
                (pf_aiComponentId (fw_feature feature)) in
            match pf_limitValue (fw_feature feature) with
            | Some limitValue =>
                if limitValue <=? usage then
                  ret (mkAccess false (Some limitValue) (Some usage))
                else
                  (* limit: feature.limitValue || undefined *)
                  ret (mkAccess true
                         (if limitValue =? 0 then None else Some limitValue)
                         (Some usage))
            | None => ret (mkAccess true None (Some usage))
            end
        end
  end.

(** ** PayPal webhook route (src/routes/webhooks.ts) *)

(** What the JSON body holds in a field that a handler passes on as a
    PayPal id: nothing, [null] or a string.  Other JSON values (numbers,
    objects) are not modelled. *)
Inductive JsonField :=
| Undefined
| Null
| Str (s : string).

(** [event.resource], as far as the handlers read it. *)
Record Resource := mkResource {
  res_id : JsonField;                   (* event.resource.id *)
  res_billing_agreement_id : JsonField; (* event.resource.billing_agreement_id *)
  (* event.resource.amount.total, as the text [parseFloat] is given;
     [None] when [event.resource.amount] is missing *)
  res_amount_total : option string;
}.

(** The fields of the webhook body the route and the handlers read, for a
    body that carries [id] and [event_type].  [wh_resource] is [None] when
    the body has no [resource]. *)
Record WebhookEvent := mkWebhook {
  wh_id : string;                       (* event.id *)
  wh_event_type : string;               (* event.event_type *)
  wh_resource : option Resource;        (* event.resource *)
}.

(** [event.resource.<field>]: reading a field of a missing [resource] is a
    [TypeError]. *)
Definition resource_of (field : string) (event : WebhookEvent) : M Resource :=
  match wh_resource event with
  | Some resource => ret resource
  | None =>
      throw ("Cannot read properties of undefined (reading '" ++ field ++ "')")
  end.

(** [prisma.subscription.findFirst({ where: { paypalSubscriptionId } })]
    with the value a body may hold: Prisma reads an [undefined] filter as no
    filter at all and [null] as "the column is NULL". *)
Definition subscriptionWhere (paypalSubscriptionId : JsonField) (st : Store)
    : option (nat * Subscription) :=
  match paypalSubscriptionId with
  | Str id => subscriptionByPaypalId id st
  | Null =>
      find_first
        (λ s, opt_eqb String.eqb (sub_paypalSubscriptionId s) None)
        (subscriptions st)
  | Undefined => find_first (λ _, true) (subscriptions st)
  end.

Definition subscription_findFirstWhere (paypalSubscriptionId : JsonField)
    : M (option (nat * Subscription)) :=
  gets (subscriptionWhere paypalSubscriptionId).

(** One HTTP delivery: the body, what PayPal answers about its signature,
    whether the PayPal API answers during the handling, and the clock. *)
Record Delivery := mkDelivery {
  d_event : WebhookEvent;
  d_signatureValid : bool;
  d_paypalReachable : bool;
  d_now : Date;
}.

(** Every handler reads [event.resource.id] (or
    [event.resource.billing_agreement_id] and [event.resource.amount.total])
    before its [try], the two that only log included: without [resource]
    the handler throws. *)
Definition handleSubscriptionCreated (event : WebhookEvent) : M unit :=
  await resource_of "id" event in
  ret tt.

(** [activateSubscription] looks the subscription up with [findUnique],
    which refuses a filter that holds no value. *)
Definition handleSubscriptionActivated (now : Date) (paypalReachable : bool)
    (event : WebhookEvent) : M unit :=
  let* resource := resource_of "id" event in
  let paypalSubscriptionId := res_id resource in
  tryCatch
    (match paypalSubscriptionId with
     | Str id =>
         await activateSubscription now paypalReachable id in
         ret tt
     | Undefined | Null =>
         throw "Argument where needs at least one of id or paypalSubscriptionId"
     end)
    (λ _, ret tt).

Definition handlePaymentCompleted (now : Date) (event : WebhookEvent)
    : M unit :=
  let* resource := resource_of "billing_agreement_id" event in
  let billingAgreementId := res_billing_agreement_id resource in
  let* amount :=
    match res_amount_total resource with
    | Some total => ret total
    | None => throw "Cannot read properties of undefined (reading 'total')"
    end in
  tryCatch
    (let* subscription := subscription_findFirstWhere billingAgreementId in
     match subscription with
     | None => ret tt
     | Some (id, sub) =>
         let* plan := include_plan (sub_planId sub) in
         let newPeriodStart := now in
         let newPeriodEnd :=
           periodEndFor (plan_billingPeriod plan) newPeriodStart in
         await subscription_update id
                 (set_period (Some ACTIVE) newPeriodStart newPeriodEnd) in
         await resetQuotas id in
         await initializeUsageForSubscription id newPeriodStart newPeriodEnd in
         await sendPaymentReceipt (sub_userId sub) amount (plan_name plan) in
         ret tt
     end)
    (λ _, ret tt).

Definition handleSubscriptionCancelled (now : Date) (event : WebhookEvent)
    : M unit :=
  let* resource := resource_of "id" event in
  let paypalSubscriptionId := res_id resource in
  tryCatch
    (let* subscription := subscription_findFirstWhere paypalSubscriptionId in
     match subscription with
     | None => ret tt
     | Some (id, _) =>
         await subscription_update id (set_cancelled now) in
         ret tt
     end)
    (λ _, ret tt).

Definition handleSubscriptionSuspended (event : WebhookEvent) : M unit :=
  let* resource := resource_of "id" event in
  let paypalSubscriptionId := res_id resource in
  tryCatch
    (let* subscription := subscription_findFirstWhere paypalSubscriptionId in
     match subscription with
     | None => ret tt
     | Some (id, sub) =>
         await subscription_update id (set_status SUSPENDED) in
         await sendPaymentFailedEmail (sub_userId sub) in
         ret tt
     end)
    (λ _, ret tt).

Definition handlePaymentFailed (event : WebhookEvent) : M unit :=
  let* resource := resource_of "id" event in
  let paypalSubscriptionId := res_id resource in
  tryCatch
    (let* subscription := subscription_findFirstWhere paypalSubscriptionId in
     match subscription with
     | None => ret tt
     | Some (_, sub) => sendPaymentFailedEmail (sub_userId sub)
     end)
    (λ _, ret tt).

Definition handleSubscriptionUpdated (event : WebhookEvent) : M unit :=
  await resource_of "id" event in
  ret tt.

(** [switch (event.event_type)] *)
Definition processEvent (now : Date) (paypalReachable : bool)
    (event : WebhookEvent) : M unit :=
  let event_type := wh_event_type event in
  if String.eqb event_type "BILLING.SUBSCRIPTION.CREATED" then
    handleSubscriptionCreated event
  else if String.eqb event_type "BILLING.SUBSCRIPTION.ACTIVATED" then
    handleSubscriptionActivated now paypalReachable event
  else if String.eqb event_type "PAYMENT.SALE.COMPLETED" then
    handlePaymentCompleted now event
  else if String.eqb event_type "BILLING.SUBSCRIPTION.CANCELLED" then
    handleSubscriptionCancelled now event
  else if String.eqb event_type "BILLING.SUBSCRIPTION.SUSPENDED" then
    handleSubscriptionSuspended event
  else if String.eqb event_type "BILLING.SUBSCRIPTION.PAYMENT.FAILED" then
    handlePaymentFailed event
  else if String.eqb event_type "BILLING.SUBSCRIPTION.UPDATED" then
    handleSubscriptionUpdated event
  else ret tt.

(** The [case] labels of the [switch]. *)
Definition handledEventTypes : list string :=
  [ "BILLING.SUBSCRIPTION.CREATED"; "BILLING.SUBSCRIPTION.ACTIVATED";
    "PAYMENT.SALE.COMPLETED"; "BILLING.SUBSCRIPTION.CANCELLED";
    "BILLING.SUBSCRIPTION.SUSPENDED"; "BILLING.SUBSCRIPTION.PAYMENT.FAILED";
    "BILLING.SUBSCRIPTION.UPDATED" ].

Definition mark_processed (now : Date) (e : PayPalEvent) : PayPalEvent :=
  mkEvent (ev_eventType e) (ev_eventId e) true (Some now) (ev_errorMessage e).

Definition mark_failed (message : string) (e : PayPalEvent) : PayPalEvent :=
  mkEvent (ev_eventType e) (ev_eventId e) false (ev_processedAt e)
    (Some message).

(** [router.post('/paypal', ...)]; the result is the HTTP status sent. *)
Definition postPaypal (d : Delivery) : M Z :=
  let event := d_event d in
  tryCatch
    (if negb (d_signatureValid d) then ret 401
     else
       await payPalEvent_create
               (mkEvent (wh_event_type event) (wh_id event) false None None) in
       await processEvent (d_now d) (d_paypalReachable d) event in
       await payPalEvent_updateMany (wh_id event) (mark_processed (d_now d)) in
       ret 200)
    (λ message,
       await
         (if String.eqb (wh_id event) "" then ret tt        (* req.body?.id *)
          else payPalEvent_updateMany (wh_id event) (mark_failed message)) in
       ret 500).

(** The store after a sequence of deliveries. *)
Definition deliver (d : Delivery) (st : Store) : Store := (postPaypal d st).2.

Definition deliverAll (ds : list Delivery) (st : Store) : Store :=
  fold_left (λ s d, deliver d s) ds st.

(** ** Quota reset job (src/cron/reset-monthly-quotas.ts) *)

Fixpoint mapM {A B} (f : A → M B) (xs : list A) : M (list B) :=
  match xs with
  | [] => ret []
  | x :: rest =>
      let* y := f x in
      let* ys := mapM f rest in
      ret (y :: ys)
  end.

(** [status: 'ACTIVE', currentPeriodEnd: { gte: startOfDay(today),
    lt: endOfDay(today) }] *)
Definition expiresToday (today : Date) (s : Subscription) : bool :=
  status_eqb (sub_status s) ACTIVE
  && match sub_currentPeriodEnd s with
     | Some periodEnd =>
         (startOfDay today <=? periodEnd) && (periodEnd <? endOfDay today)
     | None => false
     end.

Definition resetOne (now : Date)
    (entry : nat * Subscription * SubscriptionPlan) : M unit :=
  let '(id, subscription, plan) := entry in
  tryCatch
    (let* lastPeriodUsage := getCurrentPeriodUsage now id in
     let newPeriodStart := now in
     let newPeriodEnd :=
       periodEndFor (plan_billingPeriod plan) newPeriodStart in
     await subscription_update id
             (set_period None newPeriodStart newPeriodEnd) in
     await resetQuotas id in
     await initializeUsageForSubscription id newPeriodStart newPeriodEnd in
     let usageForReport :=
       fold_left
         (λ report (kv : string * UsageSummaryEntry),
            object_set kv.1 (us_used kv.2, us_limit kv.2) report)
         lastPeriodUsage [] in
     sendMonthlyUsageReport (sub_userId subscription) usageForReport)
    (λ _, ret tt).

Definition resetMonthlyQuotas (now : Date) : M unit :=
  tryCatch
    (let today := now in
     let* rows := gets (λ st, find_many (expiresToday today) (subscriptions st)) in
     let* expiringSubscriptions :=
       mapM (λ row : nat * Subscription,
               let* plan := include_plan (sub_planId row.2) in
               ret (row.1, row.2, plan))
            rows in
     forEach expiringSubscriptions (resetOne now))
    (λ _, ret tt).

(** [RunRolloverPass]: the store the job leaves behind. *)
Definition runRolloverPass (now : Date) (st : Store) : Store :=
  (resetMonthlyQuotas now st).2.

End Services.

(** ** A small store to run the services on *)

Definition day : Z := 86400000.

(** A calendar of 30-day months and 365-day years, days starting at
    multiples of [day]; [endOfDay] is the last millisecond of the day.  It
    stands in for date-fns in the examples only, whose dates therefore
    differ from the real calendar's; the theorems are proved for every
    [DateFns]. *)
#[global] Instance flatCalendar : DateFns := {|
  addMonths t n := t + n * 30 * day;
  addYears t n := t + n * 365 * day;
  startOfDay t := t - t mod day;
  endOfDay t := t - t mod day + day - 1;
|}.

Module Sample.

Definition starter := mkPlan "Starter" (Some 4900) "monthly".
Definition professional := mkPlan "Professional" (Some 14900) "monthly".

Definition invoice_ocr (isActive : bool) :=
  mkComponent "invoice_ocr" "Invoice OCR" isActive.
Definition financial_audit (isActive : bool) :=
  mkComponent "financial_audit" "Financial Audit" isActive.

(** Starter grants 100 invoice analyses; Professional grants 500 and an
    unlimited audit. *)
Definition features : list PlanFeature :=
  [ mkFeature 0 0 true (Some 100) "count";
    mkFeature 1 0 true (Some 500) "count";
    mkFeature 1 1 true None "count" ].

(** The subscription of user 0 to Starter, with the period
    [[0, 30 days)]. *)
Definition subscription (status : SubscriptionStatus)
    (cancelAtPeriodEnd : bool) : Subscription :=
  mkSubscription 0 0 (Some "I-SUB0") status (Some 0) (Some (30 * day))
    None None cancelAtPeriodEnd.

(** One user, one subscription in [status], [used] invoice analyses in the
    current period. *)
Definition store (status : SubscriptionStatus) (cancelAtPeriodEnd : bool)
    (componentsActive : bool) (used : Z) : Store :=
  mkStore
    [mkUser "owner@example.com"]
    [starter; professional]
    [invoice_ocr componentsActive; financial_audit componentsActive]
    features
    [subscription status cancelAtPeriodEnd]
    [mkUsage 0 0 "count" used 0 (30 * day)]
    [] [].

(** The request of user 0 before and after [checkSubscription]. *)
Definition request : Request := mkRequest (Some 0%nat) None None.

Definition checkedRequest : Request :=
  mkRequest (Some 0%nat)
    (Some (mkAttached 0 (subscription ACTIVE false) starter)) None.

Definition cancelled (eventId : string) : WebhookEvent :=
  mkWebhook eventId "BILLING.SUBSCRIPTION.CANCELLED"
    (Some (mkResource (Str "I-SUB0") Undefined None)).

Definition activated (eventId : string) : WebhookEvent :=
  mkWebhook eventId "BILLING.SUBSCRIPTION.ACTIVATED"
    (Some (mkResource (Str "I-SUB0") Undefined None)).

End Sample.

(** ** Frame conditions: what a computation leaves as it found it *)

Definition preserves {A X} (proj : Store → X) (m : M A) : Prop :=
  ∀ st, proj (m st).2 = proj st.

(** A computation that only reads. *)
Abbreviation readonly m := (preserves (λ st : Store, st) m).

(** The statuses of all subscriptions, in table order. *)
Definition statuses (st : Store) : list SubscriptionStatus :=
  sub_status <$> subscriptions st.

(** The [eventId]s on record, in order of arrival. *)
Definition eventIds (st : Store) : list string :=
  ev_eventId <$> payPalEvents st.

(** * More of the services *)

(** ** UsageTrackingService.isQuotaExceeded *)

Definition isQuotaExceeded (subscriptionId : nat) (aiComponentSlug : string)
    : M bool :=
  let* subscription := subscription_findUnique subscriptionId in
  match subscription with
  | None => ret true
  | Some sub =>
      let* features := plan_features (sub_planId sub) in
      match List.find
              (λ f, String.eqb (comp_slug (fw_aiComponent f)) aiComponentSlug
                    && pf_enabled (fw_feature f))
              features with
      | None => ret true                 (* Component not available in plan *)
      | Some feature =>
          match pf_limitValue (fw_feature feature) with
          | None => ret false                            (* Unlimited quota *)
          | Some limitValue =>
              let* currentUsage :=
                getComponentUsage subscriptionId
                  (pf_aiComponentId (fw_feature feature)) in
              ret (limitValue <=? currentUsage)
          end
      end
  end.

(** ** optionalSubscription (src/middleware/subscription.ts) *)

Definition optionalSubscription (req : Request) : M (Reply * Request) :=
  tryCatch
    (match req_user req with
     | None => ret (Next, req)
     | Some userId =>
         let* found := subscription_findFirstActive userId in
         match found with
         | None => ret (Next, req)
         | Some (id, sub) =>
             let* plan := include_plan (sub_planId sub) in
             ret (Next,
                  mkRequest (req_user req) (Some (mkAttached id sub plan))
                    (req_componentQuota req))
         end
     end)
    (λ _, ret (Next, req)).

(** ** SubscriptionService.createSubscription and changeSubscriptionPlan *)

(** [prisma.subscription.findFirst({ where: { userId,
    status: { in: ['ACTIVE', 'PENDING'] } } })] *)
Definition isOpenFor (userId : nat) (s : Subscription) : bool :=
  Nat.eqb (sub_userId s) userId
  && (status_eqb (sub_status s) ACTIVE || status_eqb (sub_status s) PENDING).

Definition openSubscriptionOf (userId : nat) (st : Store)
    : option (nat * Subscription) :=
  find_first (isOpenFor userId) (subscriptions st).

(** [paypal_subscription_id] carries a unique index: a value that another
    row holds is refused. *)
Definition paypalId_taken (paypalSubscriptionId : option string)
    (except : option nat) (st : Store) : bool :=
  match paypalSubscriptionId with
  | None => false
  | Some p =>
      match subscriptionByPaypalId p st with
      | Some (id, _) =>
          match except with
          | Some own => negb (Nat.eqb id own)
          | None => true
          end
      | None => false
      end
  end.

(** [prisma.subscription.create({ data: { userId, planId,
    paypalSubscriptionId, status: 'PENDING' } })]: the other columns take
    their defaults, the period stays [null]. *)
Definition subscription_create (userId planId : nat)
    (paypalSubscriptionId : option string) : M (nat * Subscription) :=
  λ st,
    if paypalId_taken paypalSubscriptionId None st then
      (Thrown "Unique constraint failed on the fields: (`paypalSubscriptionId`)",
       st)
    else
      let row :=
        mkSubscription userId planId paypalSubscriptionId PENDING
          None None None None false in
      (Ok (length (subscriptions st), row),
       set_subscriptions (λ t, t ++ [row]) st).

(** [paypalService.createSubscription(...)]: PayPal answers with the id of
    the new billing subscription and the approval link, or the call fails. *)
Definition paypalCreate (answer : option (string * string))
    : M (string * string) :=
  match answer with
  | Some created => ret created
  | None => throw "PayPal API error"
  end.

Section PlanColumns.
(** The columns [is_active] and [is_custom_pricing] of [subscription_plans],
    which the plan record above does not carry, as functions of the plan's
    id. *)
Variables (plan_isActive plan_isCustomPricing : nat → bool).

Definition createSubscription (paypalAnswer : option (string * string))
    (userId planId : nat) : M (nat * Subscription * string) :=
  let* plan := gets (λ st, subscriptionPlans st !! planId) in
  match plan with
  | None => throw "Invalid or inactive plan"
  | Some _ =>
      if negb (plan_isActive planId) then throw "Invalid or inactive plan"
      else
        let* existingSubscription := gets (openSubscriptionOf userId) in
        match existingSubscription with
        | Some _ => throw "User already has an active subscription"
        | None =>
            let* user := gets (λ st, users st !! userId) in
            match user with
            | None => throw "User not found"
            | Some _ =>
            if plan_isCustomPricing planId then
              let* subscription := subscription_create userId planId None in
              ret (subscription, "/contact-sales")
            else
              let* paypalSubscription := paypalCreate paypalAnswer in
              let* subscription :=
                subscription_create userId planId
                  (Some paypalSubscription.1) in
              ret (subscription, paypalSubscription.2)
            end
        end
  end.

(** [data: { planId, paypalSubscriptionId, paypalPlanId, status: 'PENDING' }] *)
Definition replan_data (newPlanId : nat) (paypalSubscriptionId : string)
    (s : Subscription) : Subscription :=
  mkSubscription (sub_userId s) newPlanId (Some paypalSubscriptionId) PENDING
    (sub_currentPeriodStart s) (sub_currentPeriodEnd s)
    (sub_cancelledAt s) (sub_cancellationReason s) (sub_cancelAtPeriodEnd s).

(** [data: { planId }] *)
Definition plan_data (newPlanId : nat) (s : Subscription) : Subscription :=
  mkSubscription (sub_userId s) newPlanId (sub_paypalSubscriptionId s)
    (sub_status s) (sub_currentPeriodStart s) (sub_currentPeriodEnd s)
    (sub_cancelledAt s) (sub_cancellationReason s) (sub_cancelAtPeriodEnd s).

Definition changeSubscriptionPlan (paypalReachable : bool)
    (paypalAnswer : option (string * string))
    (subscriptionId newPlanId : nat) : M Subscription :=
  let* subscription := subscription_findUnique subscriptionId in
  match subscription with
  | None => throw "Subscription not found"
  | Some sub =>
      let* plan := include_plan (sub_planId sub) in
      let* newPlan := gets (λ st, subscriptionPlans st !! newPlanId) in
      match newPlan with
      | None => throw "Invalid or inactive plan"
      | Some _ =>
          if negb (plan_isActive newPlanId) then
            throw "Invalid or inactive plan"
          else
            match sub_paypalSubscriptionId sub with
            | Some _ =>
                await paypalRequest paypalReachable in  (* cancel the old one *)
                let* user := gets (λ st, users st !! sub_userId sub) in
                await
                  match user with                        (* user!.email *)
                  | Some _ => ret tt
                  | None => throw "Cannot read properties of null"
                  end in
                let* paypalSubscription := paypalCreate paypalAnswer in
                let* taken :=
                  gets (paypalId_taken (Some paypalSubscription.1)
                          (Some subscriptionId)) in
                if taken then
                  throw "Unique constraint failed on the fields: (`paypalSubscriptionId`)"
                else
                  subscription_update subscriptionId
                    (replan_data newPlanId paypalSubscription.1)
            | None =>
                subscription_update subscriptionId (plan_data newPlanId)
            end
      end
  end.

End PlanColumns.

(** ** Basic risk scoring of the Starter plan (src/routes/ai-components.ts) *)

(** The request body's [companyData].  A numeric field holds the number the
    comparison coerces the JSON value to, or nothing when there is none
    (field absent, not a number): every comparison with it is then false.
    [paymentHistory] holds the value when it is a string. *)
Record CompanyData := mkCompany {
  yearsInBusiness : option Q;
  annualRevenue : option Q;
  paymentHistory : option string;
  creditScore : option Q;
  latePayments : option Q;
  outstandingDebts : option Q;
}.

(** [field > bound] *)
Definition exceeds (field : option Q) (bound : Z) : bool :=
  match field with
  | Some q => negb (Qle_bool q (inject_Z bound))
  | None => false
  end.

Definition calculateBasicRiskScore (companyData : CompanyData) : Z :=
  let score := 50 in
  let score := if exceeds (yearsInBusiness companyData) 5
               then score + 10 else score in
  let score := if exceeds (annualRevenue companyData) 1000000
               then score + 15 else score in
  let score := if opt_eqb String.eqb (paymentHistory companyData)
                    (Some "excellent")
               then score + 20 else score in
  let score := if exceeds (creditScore companyData) 700
               then score + 15 else score in
  let score := if exceeds (latePayments companyData) 2
               then score - 20 else score in
  let score := if exceeds (outstandingDebts companyData) 500000
               then score - 15 else score in
  Z.max 0 (Z.min 100 score).

Definition getRiskCategory (score : Z) : string :=
  if 80 <=? score then "Low Risk"
  else if 60 <=? score then "Medium Risk"
  else if 40 <=? score then "High Risk"
  else "Very High Risk".

(** ** Quota warning job (src/cron/quota-warnings.ts) *)

(** [usage[key]] on the summary object. *)
Definition object_get {V} (key : string) (obj : list (string * V))
    : option V :=
  snd <$> List.find (λ kv : string * V, String.eqb kv.1 key) obj.

(** [features: { where: { enabled: true, limitValue: { not: null } },
    include: { aiComponent: true } }] *)
Definition limitedFeatures (planId : nat) (st : Store)
    : list FeatureWithComponent :=
  List.filter
    (λ f, pf_enabled (fw_feature f)
          && match pf_limitValue (fw_feature f) with
             | Some _ => true
             | None => false
             end)
    (featuresOfPlan planId st).

(** [(used / limit) * 100 >= threshold].  The job does not set a limit of 0
    aside: the quotient is then [Infinity] for a positive [used], which
    reaches every threshold, and [NaN] or [-Infinity] otherwise, which
    reaches none. *)
Definition reaches (threshold used limit : Z) : bool :=
  if limit =? 0 then 0 <? used
  else at_least threshold (percentage_of used limit).

(** The body of [for (const feature of subscription.plan.features)]. *)
Definition warnFeature (userId : nat)
    (usage : list (string * UsageSummaryEntry))
    (feature : FeatureWithComponent) : M unit :=
  match object_get (comp_slug (fw_aiComponent feature)) usage,
        pf_limitValue (fw_feature feature) with
  | Some componentUsage, Some limit =>
      let used := us_used componentUsage in
      let componentName := comp_name (fw_aiComponent feature) in
      if reaches 100 used limit then
        sendQuotaExceededEmail userId componentName used limit
      else if reaches 90 used limit then
        sendQuotaWarningEmail userId componentName used limit 90
      else if reaches 80 used limit && negb (reaches 90 used limit) then
        sendQuotaWarningEmail userId componentName used limit 80
      else ret tt
  | _, _ => ret tt                                           (* continue *)
  end.

Definition sendQuotaWarnings (now : Date) : M unit :=
  tryCatch
    (let* rows :=
       gets (λ st,
         find_many (λ s, status_eqb (sub_status s) ACTIVE)
           (subscriptions st)) in
     let* activeSubscriptions :=
       mapM (λ row : nat * Subscription,
               await include_plan (sub_planId row.2) in
               let* features := gets (limitedFeatures (sub_planId row.2)) in
               ret (row.1, row.2, features))
            rows in
     forEach activeSubscriptions
       (λ entry : nat * Subscription * list FeatureWithComponent,
          tryCatch
            (let* usage := getCurrentPeriodUsage now entry.1.1 in
             forEach entry.2
               (warnFeature (sub_userId entry.1.2) usage))
            (λ _, ret tt)))
    (λ _, ret tt).

(** A computation that writes nothing but mails, and whose answer and
    mails do not depend on the mails sent before. *)
Definition only_mails {A} (m : M A) : Prop :=
  ∀ st, ∃ r mails, ∀ sent,
    m (set_outbox (λ _, sent) st) = (r, set_outbox (λ _, sent ++ mails) st).

(** * Reasoning principles *)

(** ** Lookup in a table *)

Section Tables.
Context {A : Type}.
Implicit Types (p : A → bool) (rows : list A).

Lemma find_from_Some p k rows i x :
  find_from p k rows = Some (i, x) →
  (k ≤ i)%nat ∧ rows !! (i - k)%nat = Some x ∧ p x = true.
Proof.
  revert k. induction rows as [|r rest IH]; intros k Hf; simpl in Hf.
  - discriminate.
  - destruct (p r) eqn:Hp.
    + inversion Hf; subst. replace (i - i)%nat with 0%nat by lia. auto.
    + apply IH in Hf as (Hle & Hl & Hx).
      split; [lia|]. split; [|done].
      replace (i - k)%nat with (S (i - S k)) by lia. done.
Qed.

Lemma find_first_Some p rows i x :
  find_first p rows = Some (i, x) → rows !! i = Some x ∧ p x = true.
Proof.
  intros Hf. apply find_from_Some in Hf as (_ & Hl & Hx).
  by rewrite Nat.sub_0_r in Hl.
Qed.

Lemma find_from_None p k rows :
  find_from p k rows = None → ∀ i x, rows !! i = Some x → p x = false.
Proof.
  revert k. induction rows as [|r rest IH]; intros k Hf i x Hl; simpl in Hf.
  - by rewrite lookup_nil in Hl.
  - destruct (p r) eqn:Hp; [discriminate|].
    destruct i as [|i]; simpl in Hl.
    + by inversion Hl; subst.
    + by eapply IH.
Qed.

Lemma find_first_None p rows :
  find_first p rows = None → ∀ i x, rows !! i = Some x → p x = false.
Proof. apply find_from_None. Qed.

Lemma find_from_all_false p k rows :
  (∀ i x, rows !! i = Some x → p x = false) → find_from p k rows = None.
Proof.
  revert k. induction rows as [|r rest IH]; intros k Hall; simpl; [done|].
  rewrite (Hall 0%nat r eq_refl). apply IH.
  intros i x Hl. by apply (Hall (S i)).
Qed.





End Tables.

(** ** Frame lemmas *)

Section Frame.
Context {X : Type} (proj : Store → X).

Lemma preserves_ret {A} (a : A) : preserves proj (ret a).
Proof. by intros st. Qed.

Lemma preserves_throw {A} message : preserves proj (@throw A message).
Proof. by intros st. Qed.

Lemma preserves_gets {A} (f : Store → A) : preserves proj (gets f).
Proof. by intros st. Qed.

Lemma preserves_bind {A B} (m : M A) (k : A → M B) :
  preserves proj m → (∀ a, preserves proj (k a)) → preserves proj (bind m k).
Proof.
  intros Hm Hk st. unfold bind. specialize (Hm st).
  destruct (m st) as [[a|e] st']; simpl in *; [|done].
  by rewrite Hk.
Qed.

Lemma preserves_tryCatch {A} (body : M A) handler :
  preserves proj body → (∀ e, preserves proj (handler e)) →
  preserves proj (tryCatch body handler).
Proof.
  intros Hm Hk st. unfold tryCatch. specialize (Hm st).
  destruct (body st) as [[a|e] st']; simpl in *; [done|].
  by rewrite Hk.
Qed.

Lemma preserves_modify (f : Store → Store) :
  (∀ st, proj (f st) = proj st) → preserves proj (modify f).
Proof. intros Hf st. apply Hf. Qed.

Lemma preserves_forEach {A} (xs : list A) body :
  (∀ x, preserves proj (body x)) → preserves proj (forEach xs body).
Proof.
  intros Hb. induction xs as [|x rest IH]; simpl.
  - apply preserves_ret.
  - apply preserves_bind; [apply Hb | intros _; apply IH].
Qed.

Lemma preserves_mapM {A B} (f : A → M B) (xs : list A) :
  (∀ x, preserves proj (f x)) → preserves proj (mapM f xs).
Proof.
  intros Hf. induction xs as [|x rest IH]; simpl.
  - apply preserves_ret.
  - apply preserves_bind; [apply Hf | intros y].
    apply preserves_bind; [apply IH | intros ys; apply preserves_ret].
Qed.

End Frame.

Create HintDb frame discriminated.
#[local] Hint Resolve preserves_ret preserves_throw preserves_gets
  preserves_modify : frame.

(** Walks through a computation written with the combinators above and
    leaves the writes it meets as goals. *)
Ltac frame_step :=
  lazymatch goal with
  | |- preserves _ (bind _ _) => apply preserves_bind; [|intros ?]
  | |- preserves _ (tryCatch _ _) => apply preserves_tryCatch; [|intros ?]
  | |- preserves _ (forEach _ _) => apply preserves_forEach; intros ?
  | |- preserves _ (mapM _ _) => apply preserves_mapM; intros ?
  | |- preserves _ (ret _) => apply preserves_ret
  | |- preserves _ (throw _) => apply preserves_throw
  | |- preserves _ (gets _) => apply preserves_gets
  | |- preserves _ (match ?x with _ => _ end) => destruct x
  | |- preserves _ (if ?b then _ else _) => destruct b
  | |- preserves _ (let '(_, _) := ?x in _) => destruct x
  end.

Ltac frame := repeat frame_step; eauto with frame.

(** ** Readers *)

Lemma getComponentUsage_readonly subscriptionId aiComponentId :
  readonly (getComponentUsage subscriptionId aiComponentId).
Proof.
  unfold getComponentUsage, subscription_findUnique, usageTracking_findFirst.
  frame.
Qed.

Lemma checkSubscription_readonly now req : readonly (checkSubscription now req).
Proof.
  unfold checkSubscription, subscription_findFirstActive, include_plan. frame.
Qed.

Lemma enforceQuota_readonly slug req : readonly (enforceQuota slug req).
Proof.
  unfold enforceQuota, aIComponent_findUnique, planFeature_findFirst,
    minPlanFor.
  repeat frame_step; auto using getComponentUsage_readonly with frame.
Qed.

Lemma admission_readonly now slug req : readonly (admission now slug req).
Proof.
  unfold admission. apply preserves_bind; [apply checkSubscription_readonly|].
  intros [[|status body] req']; [apply enforceQuota_readonly|].
  apply preserves_ret.
Qed.

(** * The quota gate *)

(** C8. Admission has no side effect: whatever [enforceQuota] answers, alone
    or behind [checkSubscription], the store it leaves is the store it found;
    in particular every usage counter keeps its value. *)
Theorem admission_has_no_side_effects now slug req st :
  (enforceQuota slug req st).2 = st
  ∧ (admission now slug req st).2 = st
  ∧ usageTracking (enforceQuota slug req st).2 = usageTracking st
  ∧ usageTracking (admission now slug req st).2 = usageTracking st.
Proof.
  pose proof (enforceQuota_readonly slug req st) as He.
  pose proof (admission_readonly now slug req st) as Ha.
  simpl in He, Ha. by rewrite He, Ha.
Qed.

(** C5, as amended.  For a request that carries the subscription attached by
    [checkSubscription] and a component that exists, is active and has an
    enabled grant in the subscription's plan: a grant without limit admits
    with [remaining = null]; a current usage at or over the limit is refused
    with QUOTA_EXCEEDED, the usage and the limit; any lower usage admits with
    [remaining = limit - usage]. *)
Theorem enforceQuota_decision st slug req attached aiComponentId component
    row feature usage :
  req_subscription req = Some attached →
  componentBySlug slug st = Some (aiComponentId, component) →
  comp_isActive component = true →
  enabledFeature (sub_planId (as_row attached)) aiComponentId st
    = Some (row, feature) →
  getComponentUsage (as_id attached) aiComponentId st = (Ok usage, st) →
  enforceQuota slug req st =
    (Ok match pf_limitValue feature with
        | None => (Next, with_componentQuota req (mkQuota usage None None))
        | Some limit =>
            if limit <=? usage then
              (Respond 429
                 (QuotaExceeded (comp_name component) usage limit
                    (sub_currentPeriodEnd (as_row attached))),
               req)
            else
              (Next,
               with_componentQuota req
                 (mkQuota usage (Some limit) (Some (limit - usage))))
        end,
     st).
Proof.
  intros Hreq Hcomp Hactive Hfeature Husage.
  unfold enforceQuota, aIComponent_findUnique, planFeature_findFirst.
  rewrite Hreq. unfold tryCatch, bind, gets. simpl.
  rewrite Hcomp, Hactive. simpl. rewrite Hfeature.
  destruct (pf_limitValue feature) as [limit|]; rewrite Husage.
  - by destruct (limit <=? usage).
  - done.
Qed.

(** With limit 100 and usage 100 the request is refused. *)
Lemma enforceQuota_decision_witness :
  enforceQuota "invoice_ocr" Sample.checkedRequest
    (Sample.store ACTIVE false true 100)
  = (Ok (Respond 429 (QuotaExceeded "Invoice OCR" 100 100 (Some (30 * day))),
         Sample.checkedRequest),
     Sample.store ACTIVE false true 100).
Proof.
  exact (enforceQuota_decision (Sample.store ACTIVE false true 100)
           "invoice_ocr" Sample.checkedRequest
           (mkAttached 0 (Sample.subscription ACTIVE false) Sample.starter)
           0%nat (Sample.invoice_ocr true)
           0%nat (mkFeature 0 0 true (Some 100) "count") 100
           eq_refl eq_refl eq_refl eq_refl eq_refl).
Defined.

(** C5, as stated, fails when the component was deactivated: the ACTIVE
    subscription has an enabled grant of 100 with nothing used, and the
    request is answered 404 instead of being admitted with 100 remaining. *)
Lemma enforceQuota_inactive_component_refused :
  let st := Sample.store ACTIVE false false 0 in
  let req := Sample.checkedRequest in
  sub_status (Sample.subscription ACTIVE false) = ACTIVE
  ∧ enabledFeature 0 0 st = Some (0%nat, mkFeature 0 0 true (Some 100) "count")
  ∧ getComponentUsage 0 0 st = (Ok 0, st)
  ∧ enforceQuota "invoice_ocr" req st
    = (Ok (Respond 404 ComponentNotFoundOrInactive, req), st)
  ∧ (enforceQuota "invoice_ocr" req st).1
    ≠ Ok (Next, with_componentQuota req (mkQuota 0 (Some 100) (Some 100))).
Proof. repeat split; try reflexivity. discriminate. Qed.

Lemma enabledFeature_none st planId aiComponentId :
  (∀ row f, planFeatures st !! row = Some f →
            pf_planId f = planId → pf_aiComponentId f = aiComponentId →
            pf_enabled f = false) →
  enabledFeature planId aiComponentId st = None.
Proof.
  intros Hnone. apply find_from_all_false. intros row f Hrow.
  destruct (Nat.eqb_spec (pf_planId f) planId) as [Hp|]; [|done].
  destruct (Nat.eqb_spec (pf_aiComponentId f) aiComponentId) as [Hc|]; [|done].
  simpl. by apply (Hnone row).
Qed.

(** C7, as amended.  For a request that carries the attached subscription
    and a component that exists and is active: when the subscription's plan
    has no grant for the component, or only a disabled one, the answer is
    403 FEATURE_NOT_AVAILABLE, never an admission, whatever the usage
    counters hold. *)
Theorem enforceQuota_feature_not_in_plan st slug req attached aiComponentId
    component counters :
  req_subscription req = Some attached →
  componentBySlug slug st = Some (aiComponentId, component) →
  comp_isActive component = true →
  (∀ row f, planFeatures st !! row = Some f →
            pf_planId f = sub_planId (as_row attached) →
            pf_aiComponentId f = aiComponentId →
            pf_enabled f = false) →
  let st' := set_usageTracking (λ _, counters) st in
  ∃ requiredPlan,
    let body :=
      FeatureNotAvailable (comp_name component)
        (plan_name (as_plan attached)) requiredPlan in
    enforceQuota slug req st' = (Ok (Respond 403 body, req), st')
    ∧ body_code body = Some "FEATURE_NOT_AVAILABLE".
Proof.
  intros Hreq Hcomp Hactive Hnone st'.
  pose proof (enabledFeature_none st _ _ Hnone) as Hfeature.
  eexists. split; [|reflexivity].
  unfold enforceQuota, aIComponent_findUnique, planFeature_findFirst,
    minPlanFor.
  rewrite Hreq. unfold tryCatch, bind, gets, ret. simpl.
  change (componentBySlug slug st') with (componentBySlug slug st).
  rewrite Hcomp, Hactive. simpl.
  change (enabledFeature (sub_planId (as_row attached)) aiComponentId st')
    with (enabledFeature (sub_planId (as_row attached)) aiComponentId st).
  rewrite Hfeature. reflexivity.
Qed.

(** Starter has no grant for the financial audit: refused, with 40 uses or
    with none on the counters. *)
Lemma enforceQuota_feature_not_in_plan_witness :
  ∃ requiredPlan,
    let st' :=
      set_usageTracking (λ _, [mkUsage 0 1 "count" 40 0 (30 * day)])
        (Sample.store ACTIVE false true 0) in
    let body := FeatureNotAvailable "Financial Audit" "Starter" requiredPlan in
    enforceQuota "financial_audit" Sample.checkedRequest st'
    = (Ok (Respond 403 body, Sample.checkedRequest), st')
    ∧ body_code body = Some "FEATURE_NOT_AVAILABLE".
Proof.
  refine (enforceQuota_feature_not_in_plan (Sample.store ACTIVE false true 0)
            "financial_audit" Sample.checkedRequest
            (mkAttached 0 (Sample.subscription ACTIVE false) Sample.starter)
            1%nat (Sample.financial_audit true)
            [mkUsage 0 1 "count" 40 0 (30 * day)]
            eq_refl eq_refl eq_refl _).
  intros [|[|[|row]]] f Hrow Hplan Hcomp; simpl in Hrow;
    inversion Hrow; subst; simpl in *; discriminate.
Defined.

(** C7, as stated, fails for a component that was deactivated: Starter has
    no grant for the financial audit, yet the refusal is the 404 of a
    component that is not found or inactive, which carries no
    FEATURE_NOT_AVAILABLE code. *)
Lemma enforceQuota_inactive_component_without_grant :
  let st := Sample.store ACTIVE false false 0 in
  let req := Sample.checkedRequest in
  componentBySlug "financial_audit" st
    = Some (1%nat, Sample.financial_audit false)
  ∧ enabledFeature 0 1 st = None
  ∧ enforceQuota "financial_audit" req st
    = (Ok (Respond 404 ComponentNotFoundOrInactive, req), st)
  ∧ body_code ComponentNotFoundOrInactive ≠ Some "FEATURE_NOT_AVAILABLE".
Proof. repeat split; try reflexivity. discriminate. Qed.

(** * The subscription gate *)

Lemma activeSubscriptionOf_Some st userId id sub :
  activeSubscriptionOf userId st = Some (id, sub) →
  subscriptions st !! id = Some sub
  ∧ sub_userId sub = userId ∧ sub_status sub = ACTIVE.
Proof.
  intros Hf. apply find_first_Some in Hf as [Hl Hp].
  apply andb_prop in Hp as [Hu Hs]. apply Nat.eqb_eq in Hu.
  repeat split; [done..|]. by destruct (sub_status sub).
Qed.

Lemma activeSubscriptionOf_None st userId :
  (∀ id sub, subscriptions st !! id = Some sub →
             sub_userId sub = userId → sub_status sub ≠ ACTIVE) →
  activeSubscriptionOf userId st = None.
Proof.
  intros Hnone. apply find_from_all_false. intros id sub Hl.
  destruct (Nat.eqb_spec (sub_userId sub) userId) as [Hu|]; [|done].
  specialize (Hnone id sub Hl Hu). by destruct (sub_status sub).
Qed.

(** C10. An ACTIVE subscription whose [currentPeriodEnd] lies strictly
    before the instant of the call is refused with 403 SUBSCRIPTION_EXPIRED
    by [checkSubscription], hence by the whole guard chain, while its stored
    status is and stays ACTIVE. *)
Theorem checkSubscription_expired_period st now slug req userId id sub plan
    periodEnd :
  req_user req = Some userId →
  activeSubscriptionOf userId st = Some (id, sub) →
  subscriptionPlans st !! sub_planId sub = Some plan →
  sub_currentPeriodEnd sub = Some periodEnd →
  periodEnd < now →
  checkSubscription now req st = (Ok (Respond 403 SubscriptionExpired, req), st)
  ∧ admission now slug req st = (Ok (Respond 403 SubscriptionExpired, req), st)
  ∧ body_code SubscriptionExpired = Some "SUBSCRIPTION_EXPIRED"
  ∧ sub_status sub = ACTIVE
  ∧ subscriptions (admission now slug req st).2 !! id = Some sub.
Proof.
  intros Huser Hfound Hplan Hend Hlt.
  assert (Hcheck : checkSubscription now req st
                   = (Ok (Respond 403 SubscriptionExpired, req), st)).
  { unfold checkSubscription, subscription_findFirstActive, include_plan.
    rewrite Huser. unfold tryCatch, bind, gets, ret. simpl.
    rewrite Hfound, Hplan, Hend.
    by destruct (Z.ltb_spec periodEnd now); [|lia]. }
  assert (Hadmission : admission now slug req st
                   = (Ok (Respond 403 SubscriptionExpired, req), st)).
  { unfold admission, bind. by rewrite Hcheck. }
  apply activeSubscriptionOf_Some in Hfound as (Hrow & _ & Hstatus).
  rewrite Hadmission. by repeat split.
Qed.

(** One day after the end of the period. *)
Lemma checkSubscription_expired_period_witness :
  let st := Sample.store ACTIVE false true 0 in
  checkSubscription (31 * day) Sample.request st
    = (Ok (Respond 403 SubscriptionExpired, Sample.request), st)
  ∧ admission (31 * day) "invoice_ocr" Sample.request st
    = (Ok (Respond 403 SubscriptionExpired, Sample.request), st)
  ∧ body_code SubscriptionExpired = Some "SUBSCRIPTION_EXPIRED"
  ∧ sub_status (Sample.subscription ACTIVE false) = ACTIVE
  ∧ subscriptions (admission (31 * day) "invoice_ocr" Sample.request st).2 !! 0%nat
    = Some (Sample.subscription ACTIVE false).
Proof.
  apply (checkSubscription_expired_period (Sample.store ACTIVE false true 0)
           (31 * day) "invoice_ocr" Sample.request 0%nat 0%nat
           (Sample.subscription ACTIVE false) Sample.starter (30 * day)
           eq_refl eq_refl eq_refl eq_refl).
  reflexivity.
Defined.

Lemma checkSubscription_Next st now req req' :
  (checkSubscription now req st).1 = Ok (Next, req') →
  ∃ attached,
    req_subscription req' = Some attached
    ∧ subscriptions st !! as_id attached = Some (as_row attached)
    ∧ sub_status (as_row attached) = ACTIVE.
Proof.
  unfold checkSubscription, subscription_findFirstActive, include_plan.
  unfold tryCatch, bind, gets, ret, throw. simpl.
  destruct (req_user req) as [userId|]; simpl; [|discriminate].
  destruct (activeSubscriptionOf userId st) as [[id sub]|] eqn:Hfound;
    simpl; [|discriminate].
  destruct (subscriptionPlans st !! sub_planId sub) as [plan|]; simpl;
    [|discriminate].
  destruct (match sub_currentPeriodEnd sub with
            | Some periodEnd => periodEnd <? now
            | None => false
            end); simpl; [discriminate|].
  intros Heq. inversion Heq; subst.
  apply activeSubscriptionOf_Some in Hfound as (Hrow & _ & Hstatus).
  by eexists (mkAttached id sub plan).
Qed.

(** C6. A subscription whose status is not ACTIVE is never admitted,
    whatever its counters hold: [hasFeatureAccess] answers
    [hasAccess: false] for it; [checkSubscription] never attaches it to a
    request, the subscription it lets through is an ACTIVE one; and when its
    owner has no ACTIVE subscription the guard chain answers
    403 NO_SUBSCRIPTION. *)
Theorem inactive_subscription_denied st now slug req id sub :
  subscriptions st !! id = Some sub →
  sub_status sub ≠ ACTIVE →
  hasFeatureAccess id slug st = (Ok (mkAccess false None None), st)
  ∧ (∀ req', (checkSubscription now req st).1 = Ok (Next, req') →
       ∃ attached,
         req_subscription req' = Some attached
         ∧ sub_status (as_row attached) = ACTIVE
         ∧ as_id attached ≠ id)
  ∧ (req_user req = Some (sub_userId sub) →
     (∀ id' sub', subscriptions st !! id' = Some sub' →
                  sub_userId sub' = sub_userId sub →
                  sub_status sub' ≠ ACTIVE) →
     admission now slug req st = (Ok (Respond 403 NoActiveSubscription, req), st)
     ∧ body_code NoActiveSubscription = Some "NO_SUBSCRIPTION").
Proof.
  intros Hrow Hstatus. split; [|split].
  - unfold hasFeatureAccess, subscription_findUnique, bind, gets, ret.
    simpl. rewrite Hrow. by destruct (sub_status sub).
  - intros req' Hnext.
    apply checkSubscription_Next in Hnext as (attached & Hatt & Hl & Hs).
    exists attached. repeat split; [done..|].
    intros Heq. rewrite Heq, Hrow in Hl. inversion Hl; subst. contradiction.
  - intros Huser Hnone. split; [|reflexivity].
    unfold admission, checkSubscription, subscription_findFirstActive.
    rewrite Huser. unfold tryCatch, bind, gets, ret. simpl.
    by rewrite (activeSubscriptionOf_None st _ Hnone).
Qed.

(** A PENDING subscription with an untouched quota of 100. *)
Lemma inactive_subscription_denied_witness :
  let st := Sample.store PENDING false true 0 in
  hasFeatureAccess 0 "invoice_ocr" st = (Ok (mkAccess false None None), st)
  ∧ admission 5 "invoice_ocr" Sample.request st
    = (Ok (Respond 403 NoActiveSubscription, Sample.request), st).
Proof.
  destruct (inactive_subscription_denied (Sample.store PENDING false true 0)
              5 "invoice_ocr" Sample.request 0%nat
              (Sample.subscription PENDING false) eq_refl)
    as (Haccess & _ & Hadmission).
  - discriminate.
  - split; [exact Haccess|]. apply Hadmission; [reflexivity|].
    intros [|id'] sub' Hrow _; simpl in Hrow; inversion Hrow; subst.
    discriminate.
Defined.

(** * The usage recorder *)

Lemma send_preserves {X} (proj : Store → X) mail userId :
  (∀ f st, proj (set_outbox f st) = proj st) →
  preserves proj (send mail userId).
Proof.
  intros Hproj. unfold send, getUserEmail. frame.
Qed.

Lemma checkQuotaWarnings_preserves {X} (proj : Store → X) subscriptionId
    aiComponentId :
  (∀ f st, proj (set_outbox f st) = proj st) →
  preserves proj (checkQuotaWarnings subscriptionId aiComponentId).
Proof.
  intros Hproj.
  unfold checkQuotaWarnings, getComponentUsage, subscription_findUnique,
    plan_features, usageTracking_findFirst, sendQuotaExceededEmail,
    sendQuotaWarningEmail.
  repeat frame_step; auto using send_preserves with frame.
Qed.

Lemma value_or_zero_Some row u : value_or_zero (Some (row, u)) = ut_value u.
Proof. simpl. by destruct (Z.eqb_spec (ut_value u) 0). Qed.

Lemma incrementUsage_unfold st id sub slug cid c amount ps pe :
  subscriptions st !! id = Some sub →
  componentBySlug slug st = Some (cid, c) →
  sub_currentPeriodStart sub = Some ps →
  sub_currentPeriodEnd sub = Some pe →
  incrementUsage id slug amount st
  = if fits (value_or_zero (usageRow id cid ps pe st)) amount
    then checkQuotaWarnings id cid (counted id cid ps pe amount st)
    else (Thrown "Value out of range for the type integer", st).
Proof.
  intros Hsub Hcomp Hps Hpe.
  unfold incrementUsage, subscription_findUnique, aIComponent_findUnique,
    usageTracking_findFirst, counted, fits.
  unfold bind at 1. unfold gets at 1. simpl. rewrite Hsub.
  unfold bind at 1. unfold gets at 1. simpl. rewrite Hcomp, Hps, Hpe.
  unfold bind at 1. unfold gets at 1. simpl.
  destruct (usageRow id cid ps pe st) as [[row u]|] eqn:Hrow.
  - rewrite value_or_zero_Some.
    unfold bind at 1. unfold usageTracking_increment.
    apply find_first_Some in Hrow as [Hl _]. rewrite Hl.
    by destruct (int32 amount && int32 (ut_value u + amount)).
  - unfold bind at 1, usageTracking_create. cbn [ut_value value_or_zero].
    rewrite Z.add_0_l, andb_diag.
    by destruct (int32 amount).
Qed.

(** The only row with a given key is the row the lookup finds. *)
Lemma usageRow_only st id cid ps pe row u :
  usageTracking st !! row = Some u →
  usage_matches id cid ps pe u = true →
  (∀ other u', usageTracking st !! other = Some u' →
               usage_matches id cid ps pe u' = true → other = row) →
  usageRow id cid ps pe st = Some (row, u).
Proof.
  intros Hl Hu Honly. unfold usageRow.
  destruct (find_first (usage_matches id cid ps pe) (usageTracking st))
    as [[found u']|] eqn:Hfound.
  - apply find_first_Some in Hfound as [Hl' Hu'].
    pose proof (Honly found u' Hl' Hu') as ->. congruence.
  - pose proof (find_first_None _ _ Hfound row u Hl). congruence.
Qed.

Lemma usage_matches_iff id cid ps pe u :
  usage_matches id cid ps pe u = true
  ↔ ut_subscriptionId u = id ∧ ut_aiComponentId u = cid
    ∧ ut_periodStart u = ps ∧ ut_periodEnd u = pe.
Proof.
  unfold usage_matches.
  rewrite !andb_true_iff, !Nat.eqb_eq, !Z.eqb_eq. tauto.
Qed.

(** C9, as amended.  [incrementUsage] on an existing subscription with a
    current period, for an existing component.  When exactly one counter
    row carries the subscription, the component and the start and end of
    the current period, and [amount] and [value + amount] fit the 32-bit
    column, that row becomes the same row with [value + amount] and no
    other row changes.  When no row carries them and [amount] fits, one row
    with [value = amount] for the current period is appended and no row
    changes.  When [amount] or the new value does not fit, the call fails
    and nothing is written. *)
Theorem incrementUsage_counter st id sub slug cid c amount ps pe :
  subscriptions st !! id = Some sub →
  componentBySlug slug st = Some (cid, c) →
  sub_currentPeriodStart sub = Some ps →
  sub_currentPeriodEnd sub = Some pe →
  let current (u : UsageTracking) :=
    ut_subscriptionId u = id ∧ ut_aiComponentId u = cid
    ∧ ut_periodStart u = ps ∧ ut_periodEnd u = pe in
  let result := incrementUsage id slug amount st in
  let after := usageTracking result.2 in
  (∀ row u,
     usageTracking st !! row = Some u → current u →
     (∀ other u', usageTracking st !! other = Some u' → current u' →
                  other = row) →
     if int32 amount && int32 (ut_value u + amount) then
       after
       = <[row := mkUsage id cid (ut_metricType u) (ut_value u + amount)
                    ps pe]> (usageTracking st)
       ∧ ut_value <$> after !! row = Some (ut_value u + amount)
       ∧ length after = length (usageTracking st)
       ∧ ∀ other, other ≠ row → after !! other = usageTracking st !! other
     else ∃ message, result = (Thrown message, st))
  ∧ ((∀ row u, usageTracking st !! row = Some u → ¬ current u) →
     if int32 amount then
       after = usageTracking st ++ [mkUsage id cid "count" amount ps pe]
       ∧ ∀ other u, usageTracking st !! other = Some u →
                    after !! other = Some u
     else ∃ message, result = (Thrown message, st)).
Proof.
  intros Hsub Hcomp Hps Hpe current result after. subst result after.
  rewrite (incrementUsage_unfold st id sub slug cid c amount ps pe)
    by assumption.
  split.
  - intros row u Hl Hcurrent Honly.
    assert (Hrow : usageRow id cid ps pe st = Some (row, u)).
    { apply usageRow_only; [done|by apply usage_matches_iff|].
      intros other u' Hl' Hu'. apply (Honly other u' Hl').
      by apply usage_matches_iff. }
    rewrite Hrow, value_or_zero_Some. unfold fits.
    destruct (int32 amount && int32 (ut_value u + amount)); [|by eexists].
    rewrite !(checkQuotaWarnings_preserves usageTracking) by reflexivity.
    unfold counted. rewrite Hrow. simpl.
    destruct Hcurrent as (Hid & Hcid & Hstart & Hend).
    unfold increment_value. rewrite Hid, Hcid, Hstart, Hend.
    repeat split.
    + rewrite list_lookup_insert_eq; [done|]. by eapply lookup_lt_Some.
    + by rewrite length_insert.
    + intros other Hne. by rewrite list_lookup_insert_ne.
  - intros Hnone.
    assert (Hrow : usageRow id cid ps pe st = None).
    { apply find_from_all_false. intros i u Hl.
      destruct (usage_matches id cid ps pe u) eqn:Hu; [|done].
      apply usage_matches_iff in Hu. by destruct (Hnone i u Hl). }
    rewrite Hrow. unfold fits. cbn [value_or_zero].
    rewrite Z.add_0_l, andb_diag.
    destruct (int32 amount); [|by eexists].
    rewrite !(checkQuotaWarnings_preserves usageTracking) by reflexivity.
    unfold counted. rewrite Hrow. simpl.
    split; [done|]. intros other u Hl. by apply lookup_app_l_Some.
Qed.

(** Three more uses on the counter that holds 79, in a table with the
    counters of another component, of an earlier period and of another
    subscription. *)
Lemma incrementUsage_counter_witness :
  let st :=
    set_usageTracking
      (λ _, [mkUsage 0 1 "count" 5 0 (30 * day);
             mkUsage 0 0 "count" 40 (-30 * day) 0;
             mkUsage 0 0 "count" 79 0 (30 * day);
             mkUsage 1 0 "count" 7 0 (30 * day)])
      (Sample.store ACTIVE false true 0) in
  usageTracking (incrementUsage 0 "invoice_ocr" 3 st).2
  = [mkUsage 0 1 "count" 5 0 (30 * day);
     mkUsage 0 0 "count" 40 (-30 * day) 0;
     mkUsage 0 0 "count" 82 0 (30 * day);
     mkUsage 1 0 "count" 7 0 (30 * day)].
Proof.
  intros st.
  destruct (incrementUsage_counter st 0%nat
              (Sample.subscription ACTIVE false) "invoice_ocr" 0%nat
              (Sample.invoice_ocr true) 3 0 (30 * day)
              eq_refl eq_refl eq_refl eq_refl) as [Hexisting _].
  refine (proj1 (Hexisting 2%nat (mkUsage 0 0 "count" 79 0 (30 * day))
                   eq_refl (conj eq_refl (conj eq_refl (conj eq_refl eq_refl)))
                   _)).
  intros [|[|[|[|other]]]] u' Hl (Hid & Hcid & Hstart & Hend);
    simpl in Hl; try discriminate Hl; injection Hl as <-;
    try reflexivity; discriminate.
Defined.

(** C9, as stated, fails at the top of the column's range: the increment of
    a counter that holds 2147483647 is refused, the call fails and the
    counter keeps its value. *)
Lemma incrementUsage_refused_at_ceiling :
  let st := Sample.store ACTIVE false true 2147483647 in
  let result := incrementUsage 0 "invoice_ocr" 1 st in
  ut_value <$> usageTracking st !! 0%nat = Some 2147483647
  ∧ result = (Thrown "Value out of range for the type integer", st)
  ∧ ut_value <$> usageTracking result.2 !! 0%nat ≠ Some (2147483647 + 1).
Proof. repeat split. vm_compute. discriminate. Qed.

(** ** Threshold mails *)


Lemma send_ok st mail userId user :
  users st !! userId = Some user →
  send mail userId st = (Ok tt, set_outbox (λ o, o ++ [mail]) st).
Proof.
  intros Huser. unfold send, getUserEmail, bind, gets, ret, modify. simpl.
  by rewrite Huser.
Qed.





(** * The rollover pass *)

Lemma subscription_update_preserves {X} (proj : Store → X) id data :
  (∀ st s, subscriptions st !! id = Some s →
           proj (set_subscriptions (λ t, <[id := data s]> t) st) = proj st) →
  preserves proj (subscription_update id data).
Proof.
  intros Hproj st. unfold subscription_update.
  destruct (subscriptions st !! id) as [s|] eqn:Hs; simpl; [|done].
  by apply Hproj.
Qed.

Lemma statuses_insert st id s s' :
  subscriptions st !! id = Some s → sub_status s' = sub_status s →
  statuses (set_subscriptions (λ t, <[id := s']> t) st) = statuses st.
Proof.
  intros Hs Hstatus. unfold statuses. simpl.
  rewrite list_fmap_insert, Hstatus.
  apply list_insert_id. by rewrite list_lookup_fmap, Hs.
Qed.

Lemma initializeUsage_preserves {X} (proj : Store → X) id periodStart
    periodEnd :
  (∀ f st, proj (set_usageTracking f st) = proj st) →
  preserves proj (initializeUsageForSubscription id periodStart periodEnd).
Proof.
  intros Hproj.
  unfold initializeUsageForSubscription, subscription_findUnique,
    plan_features, usageTracking_createMany.
  frame.
Qed.

Lemma getCurrentPeriodUsage_readonly now id :
  readonly (getCurrentPeriodUsage now id).
Proof.
  unfold getCurrentPeriodUsage, subscription_findUnique, plan_features. frame.
Qed.

Section Rollover.
Context `{DateFns}.

Lemma resetOne_preserves_statuses now entry :
  preserves statuses (resetOne now entry).
Proof.
  destruct entry as [[id subscription] plan]. unfold resetOne.
  apply preserves_tryCatch; [|intros; apply preserves_ret].
  apply preserves_bind.
  { intros st. by rewrite getCurrentPeriodUsage_readonly. }
  intros lastPeriodUsage. apply preserves_bind.
  { apply subscription_update_preserves. intros st s Hs.
    by apply (statuses_insert st id s). }
  intros _. apply preserves_bind; [unfold resetQuotas, subscription_findUnique; frame|].
  intros _. apply preserves_bind; [by apply initializeUsage_preserves|].
  intros _. by apply send_preserves.
Qed.

(** The pass writes periods and counters and never a status: after it,
    every subscription has the status it had before. *)
Lemma rollover_keeps_every_status now st :
  statuses (runRolloverPass now st) = statuses st.
Proof.
  unfold runRolloverPass.
  apply (preserves_tryCatch statuses); [|intros; apply preserves_ret].
  apply preserves_bind; [apply preserves_gets|]. intros rows.
  apply preserves_bind.
  - apply preserves_mapM. intros row. unfold include_plan. frame.
  - intros expiring. apply preserves_forEach. intros entry.
    apply resetOne_preserves_statuses.
Qed.

End Rollover.

(** C3, on the code.  The owner cancels without [cancelImmediately]: the
    subscription stays ACTIVE, is flagged [cancelAtPeriodEnd] and the owner
    is told that access lasts until the end of the period.  The pass that
    runs on the day the period ends finds the subscription, leaves it ACTIVE
    with the flag set and gives it a fresh period. *)
Lemma rollover_renews_subscription_cancelled_at_period_end :
  let st := Sample.store ACTIVE false true 10 in
  let flagged := (cancelSubscription (12 * day) true 0 None false st).2 in
  let rolled := runRolloverPass (30 * day) flagged in
  subscriptions flagged
    = [mkSubscription 0 0 (Some "I-SUB0") ACTIVE (Some 0) (Some (30 * day))
         (Some (12 * day)) None true]
  ∧ outbox flagged = [CancellationEmail 0 "Starter" false]
  ∧ expiresToday (30 * day)
      (mkSubscription 0 0 (Some "I-SUB0") ACTIVE (Some 0) (Some (30 * day))
         (Some (12 * day)) None true) = true
  ∧ subscriptions rolled
    = [mkSubscription 0 0 (Some "I-SUB0") ACTIVE (Some (30 * day))
         (Some (60 * day)) (Some (12 * day)) None true].
Proof. repeat split; vm_compute; reflexivity. Qed.

(** * Webhook ingestion *)

(** [try { ... } catch { log }] around a handler: nothing is raised. *)
Lemma swallowed (body : M unit) st :
  (tryCatch body (λ _, ret tt) st).1 = Ok tt.
Proof. unfold tryCatch. by destruct (body st) as [[[]|e] st']. Qed.

Section Webhooks.
Context `{DateFns}.

(** A handler given a body with [resource] (and, for a payment, with
    [amount]) raises nothing: what fails inside its [try] is swallowed. *)
Lemma processEvent_ok now reachable event resource st :
  wh_resource event = Some resource →
  (wh_event_type event = "PAYMENT.SALE.COMPLETED" →
   is_Some (res_amount_total resource)) →
  (processEvent now reachable event st).1 = Ok tt.
Proof.
  intros Hresource Hamount.
  unfold processEvent, handleSubscriptionCreated, handleSubscriptionActivated,
    handlePaymentCompleted, handleSubscriptionCancelled,
    handleSubscriptionSuspended, handlePaymentFailed,
    handleSubscriptionUpdated, resource_of.
  rewrite Hresource.
  repeat match goal with
         | |- context [if String.eqb ?a ?b then _ else _] =>
             destruct (String.eqb_spec a b)
         end;
    try reflexivity; try (unfold bind at 1, ret at 1; apply swallowed).
  destruct (Hamount e) as [total Htotal].
  unfold bind at 1, ret at 1. rewrite Htotal.
  unfold bind at 1, ret at 1. apply swallowed.
Qed.

(** A handler that raises has written nothing: it raises before its
    [try]. *)
Lemma processEvent_outcome now reachable event st :
  (processEvent now reachable event st).1 = Ok tt
  ∨ ∃ message, processEvent now reachable event st = (Thrown message, st).
Proof.
  destruct (wh_resource event) as [resource|] eqn:Hresource.
  - destruct (res_amount_total resource) as [total|] eqn:Htotal.
    + left. apply (processEvent_ok now reachable event resource st Hresource).
      intros _. by rewrite Htotal.
    + destruct (String.eqb_spec (wh_event_type event)
                  "PAYMENT.SALE.COMPLETED") as [Htype|Htype].
      * right. unfold processEvent. rewrite Htype. simpl.
        unfold handlePaymentCompleted, resource_of.
        rewrite Hresource. unfold bind at 1, ret at 1. rewrite Htotal.
        by eexists.
      * left. by apply (processEvent_ok now reachable event resource st).
  - unfold processEvent, handleSubscriptionCreated,
      handleSubscriptionActivated, handlePaymentCompleted,
      handleSubscriptionCancelled, handleSubscriptionSuspended,
      handlePaymentFailed, handleSubscriptionUpdated, resource_of.
    rewrite Hresource.
    repeat match goal with
           | |- context [if ?b then _ else _] => destruct b
           end;
      try (by left); right; by eexists.
Qed.

(** Without [resource], every handler raises. *)
Lemma processEvent_no_resource now reachable event :
  wh_resource event = None →
  wh_event_type event ∈ handledEventTypes →
  ∃ message, ∀ st,
    processEvent now reachable event st = (Thrown message, st).
Proof.
  intros Hresource Htype.
  unfold processEvent, handleSubscriptionCreated,
    handleSubscriptionActivated, handlePaymentCompleted,
    handleSubscriptionCancelled, handleSubscriptionSuspended,
    handlePaymentFailed, handleSubscriptionUpdated, resource_of.
  rewrite Hresource.
  unfold handledEventTypes in Htype.
  repeat (apply elem_of_cons in Htype as [-> | Htype];
          [eexists; intros st; reflexivity|]).
  by apply elem_of_nil in Htype.
Qed.

Lemma activateSubscription_preserves {X} (proj : Store → X) now reachable
    paypalSubscriptionId :
  (∀ f st, proj (set_subscriptions f st) = proj st) →
  (∀ f st, proj (set_usageTracking f st) = proj st) →
  (∀ f st, proj (set_outbox f st) = proj st) →
  preserves proj (activateSubscription now reachable paypalSubscriptionId).
Proof.
  intros Hs Hu Ho.
  unfold activateSubscription, subscription_findByPaypalId, include_plan,
    paypalRequest, sendWelcomeEmail.
  repeat frame_step;
    auto using send_preserves, initializeUsage_preserves,
      subscription_update_preserves with frame.
Qed.

(** The handlers write subscriptions, counters and mails, nothing else. *)
Lemma processEvent_preserves {X} (proj : Store → X) now reachable event :
  (∀ f st, proj (set_subscriptions f st) = proj st) →
  (∀ f st, proj (set_usageTracking f st) = proj st) →
  (∀ f st, proj (set_outbox f st) = proj st) →
  preserves proj (processEvent now reachable event).
Proof.
  intros Hs Hu Ho.
  unfold processEvent, handleSubscriptionCreated, handleSubscriptionActivated,
    handlePaymentCompleted, handleSubscriptionCancelled,
    handleSubscriptionSuspended, handlePaymentFailed,
    handleSubscriptionUpdated, resource_of, resetQuotas,
    subscription_findUnique, subscription_findFirstWhere, include_plan,
    sendPaymentReceipt, sendPaymentFailedEmail.
  repeat frame_step;
    auto using send_preserves, initializeUsage_preserves,
      subscription_update_preserves, activateSubscription_preserves
      with frame.
Qed.

Lemma subscriptionByPaypalId_Some st paypalId id s :
  subscriptionByPaypalId paypalId st = Some (id, s) →
  subscriptions st !! id = Some s.
Proof. intros Hf. by apply find_first_Some in Hf as [Hl _]. Qed.


End Webhooks.



(** ** The event ledger *)

Lemma eventId_recorded_iff eventId st :
  eventId_recorded eventId st = true ↔ eventId ∈ eventIds st.
Proof.
  unfold eventId_recorded, eventIds.
  rewrite existsb_exists, list_elem_of_fmap.
  split.
  - intros (e & Hin & Heq). apply String.eqb_eq in Heq.
    exists e. split; [done|]. by apply list_elem_of_In.
  - intros (e & -> & Hin). exists e. split; [by apply list_elem_of_In|].
    apply String.eqb_refl.
Qed.

Lemma eventIds_updateMany eventId data st :
  (∀ e, ev_eventId (data e) = ev_eventId e) →
  eventIds (payPalEvent_updateMany eventId data st).2 = eventIds st.
Proof.
  intros Hdata. unfold eventIds. simpl. rewrite <- list_fmap_compose.
  apply list_fmap_ext. intros i e _. simpl.
  by destruct (String.eqb (ev_eventId e) eventId).
Qed.

Section Ledger.
Context `{DateFns}.

(** A delivery whose [eventId] is on record already is refused before any
    handler runs: it is answered 401 or 500 and touches at most the ledger
    row. *)
Lemma postPaypal_duplicate d st :
  eventId_recorded (wh_id (d_event d)) st = true →
  postPaypal d st
  = if d_signatureValid d then
      (Ok 500,
       if String.eqb (wh_id (d_event d)) "" then st
       else
         (payPalEvent_updateMany (wh_id (d_event d))
            (mark_failed "Unique constraint failed on the fields: (`eventId`)")
            st).2)
    else (Ok 401, st).
Proof.
  intros Hrecorded. unfold postPaypal.
  destruct (d_signatureValid d); simpl; [|done].
  unfold tryCatch, bind at 1, payPalEvent_create. simpl. rewrite Hrecorded.
  by destruct (String.eqb (wh_id (d_event d)) "").
Qed.

Lemma deliver_duplicate d st :
  eventId_recorded (wh_id (d_event d)) st = true →
  subscriptions (deliver d st) = subscriptions st
  ∧ usageTracking (deliver d st) = usageTracking st
  ∧ outbox (deliver d st) = outbox st
  ∧ eventIds (deliver d st) = eventIds st.
Proof.
  intros Hrecorded. unfold deliver.
  rewrite (postPaypal_duplicate d st Hrecorded).
  destruct (d_signatureValid d); [|done].
  destruct (String.eqb (wh_id (d_event d)) ""); [done|].
  repeat split. by apply eventIds_updateMany.
Qed.

(** What a delivery adds to the ledger: its [eventId], when the signature
    is valid and the [eventId] is new. *)
Lemma deliver_eventIds d st :
  eventIds (deliver d st)
  = eventIds st
    ++ (if d_signatureValid d
           && negb (eventId_recorded (wh_id (d_event d)) st)
        then [wh_id (d_event d)] else []).
Proof.
  destruct (eventId_recorded (wh_id (d_event d)) st) eqn:Hrecorded.
  - destruct (deliver_duplicate d st Hrecorded) as (_ & _ & _ & ->).
    by rewrite andb_false_r, app_nil_r.
  - unfold deliver, postPaypal.
    destruct (d_signatureValid d); simpl; [|by rewrite app_nil_r].
    unfold tryCatch, bind at 1, payPalEvent_create. simpl.
    rewrite Hrecorded. simpl.
    match goal with
    | |- context [bind (processEvent ?n ?r ?ev) ?k ?st1] =>
        pose proof (processEvent_preserves payPalEvents n r ev
                      (λ _ _, eq_refl) (λ _ _, eq_refl) (λ _ _, eq_refl) st1)
          as Hkeep;
        unfold bind at 1;
        destruct (processEvent n r ev st1) as [[[]|e] st2]
    end; simpl in *.
    + unfold bind, eventIds. simpl. rewrite <- list_fmap_compose.
      rewrite (list_fmap_ext _ ev_eventId (payPalEvents st2)).
      * by rewrite Hkeep, fmap_app.
      * intros i e' _. simpl.
        by destruct (String.eqb (ev_eventId e') (wh_id (d_event d))).
    + unfold bind.
      destruct (String.eqb (wh_id (d_event d)) ""); simpl.
      * unfold eventIds. by rewrite Hkeep, fmap_app.
      * unfold eventIds. simpl. rewrite <- list_fmap_compose.
        rewrite (list_fmap_ext _ ev_eventId (payPalEvents st2)).
        -- by rewrite Hkeep, fmap_app.
        -- intros i e' _. simpl.
           by destruct (String.eqb (ev_eventId e') (wh_id (d_event d))).
Qed.

(** A delivery with a valid signature leaves its [eventId] on record. *)
Lemma deliver_records d st :
  d_signatureValid d = true →
  wh_id (d_event d) ∈ eventIds (deliver d st).
Proof.
  intros Hvalid. rewrite deliver_eventIds, Hvalid. apply elem_of_app.
  destruct (eventId_recorded (wh_id (d_event d)) st) eqn:Hrecorded; simpl.
  - left. by apply eventId_recorded_iff.
  - right. by apply list_elem_of_singleton.
Qed.

(** Ledger entries are never removed. *)
Lemma deliver_keeps_records d st eventId :
  eventId ∈ eventIds st → eventId ∈ eventIds (deliver d st).
Proof. intros Hin. rewrite deliver_eventIds. apply elem_of_app. by left. Qed.

Lemma deliverAll_keeps_records ds st eventId :
  eventId ∈ eventIds st → eventId ∈ eventIds (deliverAll ds st).
Proof.
  revert st. induction ds as [|d rest IH]; intros st Hin; simpl; [done|].
  apply IH. by apply deliver_keeps_records.
Qed.

(** C1. Once a delivery with a valid signature has been taken in, a later
    delivery with the same [eventId] changes no subscription, no usage
    counter and sends no mail, whatever was delivered in between. *)
Theorem redelivery_is_idempotent st first between again :
  d_signatureValid first = true →
  wh_id (d_event again) = wh_id (d_event first) →
  let once := deliverAll between (deliver first st) in
  let twice := deliver again once in
  subscriptions twice = subscriptions once
  ∧ usageTracking twice = usageTracking once
  ∧ outbox twice = outbox once.
Proof.
  intros Hvalid Hsame once twice.
  assert (Hrecorded : eventId_recorded (wh_id (d_event again)) once = true).
  { apply eventId_recorded_iff. rewrite Hsame.
    apply deliverAll_keeps_records. by apply deliver_records. }
  destruct (deliver_duplicate again once Hrecorded) as (Hs & Hu & Ho & _).
  done.
Qed.

End Ledger.

(** Scenario D: the cancellation [evt-1] delivered twice, an activation in
    between. *)
Lemma redelivery_is_idempotent_witness :
  let first := mkDelivery (Sample.cancelled "evt-1") true true (3 * day) in
  let other := mkDelivery (Sample.activated "evt-2") true true (4 * day) in
  let again := mkDelivery (Sample.cancelled "evt-1") true true (5 * day) in
  let once :=
    deliverAll [other] (deliver first (Sample.store ACTIVE false true 10)) in
  let twice := deliver again once in
  subscriptions twice = subscriptions once
  ∧ usageTracking twice = usageTracking once
  ∧ outbox twice = outbox once.
Proof.
  exact (redelivery_is_idempotent (Sample.store ACTIVE false true 10)
           (mkDelivery (Sample.cancelled "evt-1") true true (3 * day))
           [mkDelivery (Sample.activated "evt-2") true true (4 * day)]
           (mkDelivery (Sample.cancelled "evt-1") true true (5 * day))
           eq_refl eq_refl).
Defined.

(** * Further properties of the recorder and the checks *)

Lemma getComponentUsage_value st id sub cid ps pe :
  subscriptions st !! id = Some sub →
  sub_currentPeriodStart sub = Some ps →
  sub_currentPeriodEnd sub = Some pe →
  getComponentUsage id cid st
  = (Ok (value_or_zero (usageRow id cid ps pe st)), st).
Proof.
  intros Hsub Hps Hpe.
  unfold getComponentUsage, subscription_findUnique, usageTracking_findFirst,
    bind, gets, ret. simpl.
  by rewrite Hsub, Hps, Hpe.
Qed.


Lemma getComponentUsage_result st id cid :
  getComponentUsage id cid st = ((getComponentUsage id cid st).1, st).
Proof.
  pose proof (getComponentUsage_readonly id cid st) as Hst. simpl in Hst.
  destruct (getComponentUsage id cid st) as [r st']. simpl in *. by subst.
Qed.









Lemma hasFeatureAccess_active st id sub slug :
  subscriptions st !! id = Some sub →
  sub_status sub = ACTIVE →
  hasFeatureAccess id slug st =
    match List.find
            (λ f, String.eqb (comp_slug (fw_aiComponent f)) slug
                  && pf_enabled (fw_feature f))
            (featuresOfPlan (sub_planId sub) st) with
    | None => (Ok (mkAccess false None None), st)
    | Some feature =>
        (match (getComponentUsage id (pf_aiComponentId (fw_feature feature))
                  st).1 with
         | Ok usage =>
             Ok match pf_limitValue (fw_feature feature) with
                | None => mkAccess true None (Some usage)
                | Some limit =>
                    if limit <=? usage then
                      mkAccess false (Some limit) (Some usage)
                    else
                      mkAccess true (if limit =? 0 then None else Some limit)
                        (Some usage)
                end
         | Thrown e => Thrown e
         end, st)
    end.
Proof.
  intros Hsub Hstatus.
  unfold hasFeatureAccess, subscription_findUnique, plan_features,
    bind, gets, ret. simpl. rewrite Hsub, Hstatus. simpl.
  destruct (List.find _ (featuresOfPlan (sub_planId sub) st)) as [feature|];
    [|done].
  rewrite (getComponentUsage_result st id
             (pf_aiComponentId (fw_feature feature))).
  destruct (getComponentUsage id (pf_aiComponentId (fw_feature feature)) st).1
    as [usage|e]; simpl; [|done].
  destruct (pf_limitValue (fw_feature feature)) as [limit|]; [|done].
  by destruct (limit <=? usage).
Qed.

Lemma isQuotaExceeded_found st id sub slug :
  subscriptions st !! id = Some sub →
  isQuotaExceeded id slug st =
    match List.find
            (λ f, String.eqb (comp_slug (fw_aiComponent f)) slug
                  && pf_enabled (fw_feature f))
            (featuresOfPlan (sub_planId sub) st) with
    | None => (Ok true, st)
    | Some feature =>
        match pf_limitValue (fw_feature feature) with
        | None => (Ok false, st)
        | Some limit =>
            (match (getComponentUsage id
                      (pf_aiComponentId (fw_feature feature)) st).1 with
             | Ok usage => Ok (limit <=? usage)
             | Thrown e => Thrown e
             end, st)
        end
    end.
Proof.
  intros Hsub.
  unfold isQuotaExceeded, subscription_findUnique, plan_features,
    bind, gets, ret. simpl. rewrite Hsub. simpl.
  destruct (List.find _ (featuresOfPlan (sub_planId sub) st)) as [feature|];
    [|done].
  destruct (pf_limitValue (fw_feature feature)) as [limit|]; [|done].
  rewrite (getComponentUsage_result st id
             (pf_aiComponentId (fw_feature feature))).
  by destruct (getComponentUsage id (pf_aiComponentId (fw_feature feature))
                 st).1.
Qed.

(** X2.  [hasFeatureAccess] on an ACTIVE subscription whose plan has an
    enabled feature for the slug: access is granted when the feature has no
    limit or the usage is below it, and refused with the limit and the usage
    when the usage has reached it.  Neither the component's [isActive] nor
    the end of the period is consulted. *)
Theorem hasFeatureAccess_decision st id sub slug feature usage :
  subscriptions st !! id = Some sub →
  sub_status sub = ACTIVE →
  List.find
    (λ f, String.eqb (comp_slug (fw_aiComponent f)) slug
          && pf_enabled (fw_feature f))
    (featuresOfPlan (sub_planId sub) st) = Some feature →
  getComponentUsage id (pf_aiComponentId (fw_feature feature)) st
    = (Ok usage, st) →
  hasFeatureAccess id slug st =
    (Ok match pf_limitValue (fw_feature feature) with
        | None => mkAccess true None (Some usage)
        | Some limit =>
            if limit <=? usage then mkAccess false (Some limit) (Some usage)
            else
              mkAccess true (if limit =? 0 then None else Some limit)
                (Some usage)
        end,
     st).
Proof.
  intros Hsub Hstatus Hfind Husage.
  rewrite (hasFeatureAccess_active st id sub slug Hsub Hstatus), Hfind.
  by rewrite Husage.
Qed.

(** A deactivated component, 99 uses of 100: access is granted. *)
Lemma hasFeatureAccess_decision_witness :
  let st := Sample.store ACTIVE false false 99 in
  hasFeatureAccess 0 "invoice_ocr" st
  = (Ok (mkAccess true (Some 100) (Some 99)), st).
Proof.
  exact (hasFeatureAccess_decision (Sample.store ACTIVE false false 99) 0%nat
           (Sample.subscription ACTIVE false) "invoice_ocr"
           (mkFeatureWith (mkFeature 0 0 true (Some 100) "count")
              (Sample.invoice_ocr false))
           99 eq_refl eq_refl eq_refl eq_refl).
Defined.

(** X3.  On an ACTIVE subscription the two checks agree: whenever
    [hasFeatureAccess] answers, [isQuotaExceeded] answers the negation of
    its [hasAccess], and writes nothing. *)
Theorem isQuotaExceeded_agrees_with_hasFeatureAccess st id sub slug access :
  subscriptions st !! id = Some sub →
  sub_status sub = ACTIVE →
  (hasFeatureAccess id slug st).1 = Ok access →
  isQuotaExceeded id slug st = (Ok (negb (hasAccess access)), st).
Proof.
  intros Hsub Hstatus.
  rewrite (hasFeatureAccess_active st id sub slug Hsub Hstatus).
  rewrite (isQuotaExceeded_found st id sub slug Hsub).
  destruct (List.find _ (featuresOfPlan (sub_planId sub) st)) as [feature|];
    simpl; [|intros [= <-]; reflexivity].
  destruct (getComponentUsage id (pf_aiComponentId (fw_feature feature)) st).1
    as [usage|e]; simpl; [|discriminate].
  destruct (pf_limitValue (fw_feature feature)) as [limit|].
  - destruct (limit <=? usage); intros [= <-]; reflexivity.
  - intros [= <-]. reflexivity.
Qed.

(** At 100 of 100: no access, quota exceeded. *)
Lemma isQuotaExceeded_agrees_with_hasFeatureAccess_witness :
  isQuotaExceeded 0 "invoice_ocr" (Sample.store ACTIVE false true 100)
  = (Ok (negb false), Sample.store ACTIVE false true 100).
Proof.
  exact (isQuotaExceeded_agrees_with_hasFeatureAccess
           (Sample.store ACTIVE false true 100) 0%nat
           (Sample.subscription ACTIVE false) "invoice_ocr"
           (mkAccess false (Some 100) (Some 100))
           eq_refl eq_refl eq_refl).
Defined.



(** ** The usage summary *)

Lemma filter_from_In {A} (p : A → bool) k rows i r :
  (i, r) ∈ filter_from p k rows →
  (k ≤ i)%nat ∧ rows !! (i - k)%nat = Some r ∧ p r = true.
Proof.
  revert k. induction rows as [|x rest IH]; intros k Hin; simpl in Hin.
  - by apply elem_of_nil in Hin.
  - assert (Hrest : (i, r) ∈ filter_from p (S k) rest →
                    (k ≤ i)%nat ∧ (x :: rest) !! (i - k)%nat = Some r
                    ∧ p r = true).
    { intros Hin'. apply IH in Hin' as (Hle & Hl & Hp).
      split; [lia|]. split; [|done].
      replace (i - k)%nat with (S (i - S k)) by lia. done. }
    destruct (p x) eqn:Hpx; [|by apply Hrest].
    apply elem_of_cons in Hin as [Heq|Hin]; [|by apply Hrest].
    inversion Heq; subst. replace (k - k)%nat with 0%nat by lia. auto.
Qed.

Lemma find_many_In {A} (p : A → bool) rows i r :
  (i, r) ∈ find_many p rows → rows !! i = Some r ∧ p r = true.
Proof.
  intros Hin. apply filter_from_In in Hin as (_ & Hl & Hp).
  by rewrite Nat.sub_0_r in Hl.
Qed.

Lemma filter_from_complete {A} (p : A → bool) k rows j r :
  rows !! j = Some r → p r = true → ((k + j)%nat, r) ∈ filter_from p k rows.
Proof.
  revert k j. induction rows as [|x rest IH]; intros k j Hl Hp; simpl.
  - by rewrite lookup_nil in Hl.
  - destruct j as [|j]; simpl in Hl.
    + inversion Hl; subst. rewrite Hp, Nat.add_0_r. apply elem_of_cons.
      by left.
    + replace (k + S j)%nat with (S k + j)%nat by lia.
      destruct (p x); [apply elem_of_cons; right|]; by apply IH.
Qed.

Lemma find_many_complete {A} (p : A → bool) rows j r :
  rows !! j = Some r → p r = true → (j, r) ∈ find_many p rows.
Proof. intros Hl Hp. by apply (filter_from_complete p 0 rows j r). Qed.

Lemma object_set_Forall {V} (P : V → Prop) key entry (obj : list (string * V)) :
  Forall (λ kv, P kv.2) obj → P entry →
  Forall (λ kv, P kv.2) (object_set key entry obj).
Proof.
  intros Hobj Hentry. induction obj as [|[k v] rest IH]; simpl.
  - by constructor.
  - inversion Hobj; subst. destruct (String.eqb k key); constructor; auto.
Qed.

(** X5.  The summary looks at counters whose period started within the last
    32 days only.  For a subscription whose current period started earlier,
    as every yearly one does after its first month, [getCurrentPeriodUsage]
    answers, and reports zero use for every component, whatever the counters
    hold. *)
Theorem getCurrentPeriodUsage_window st now id sub periodStart :
  subscriptions st !! id = Some sub →
  sub_currentPeriodStart sub = Some periodStart →
  periodStart < now - 32 * day →
  ∃ summary,
    getCurrentPeriodUsage now id st = (Ok summary, st)
    ∧ Forall (λ entry, us_used entry.2 = 0) summary.
Proof.
  intros Hsub Hps Hold.
  unfold getCurrentPeriodUsage, subscription_findUnique, plan_features,
    bind, gets, ret. simpl. rewrite Hsub.
  eexists. split; [reflexivity|].
  generalize (featuresOfPlan (sub_planId sub) st) as features.
  assert (Hacc : Forall (λ entry : string * UsageSummaryEntry,
                           us_used entry.2 = 0) []) by constructor.
  revert Hacc. generalize (@nil (string * UsageSummaryEntry)) as summary.
  intros summary Hacc features. revert summary Hacc.
  induction features as [|feature rest IH]; intros summary Hacc; simpl;
    [done|].
  apply IH. destruct (pf_enabled (fw_feature feature)); simpl; [|done].
  apply (object_set_Forall (λ e, us_used e = 0)); [done|]. simpl.
  match goal with
  | |- value_or_zero ?found = 0 => destruct found as [[i u]|] eqn:Hfound
  end; [|done].
  exfalso. apply find_first_Some in Hfound as [Hl Hp].
  apply andb_prop in Hp as [_ Hstart]. rewrite Hps in Hstart. simpl in Hstart.
  apply Z.eqb_eq in Hstart.
  apply list_elem_of_lookup_2, list_elem_of_fmap in Hl
    as ([j u'] & -> & Hin).
  apply find_many_In in Hin as [_ Hwindow].
  apply andb_prop in Hwindow as [_ Hwindow]. apply Z.leb_le in Hwindow.
  simpl in Hstart. unfold day in Hold. lia.
Qed.

(** Forty uses on record, the summary asked for on day 40 of the period. *)
Lemma getCurrentPeriodUsage_window_witness :
  ∃ summary,
    getCurrentPeriodUsage (40 * day) 0 (Sample.store ACTIVE false true 40)
    = (Ok summary, Sample.store ACTIVE false true 40)
    ∧ Forall (λ entry, us_used entry.2 = 0) summary.
Proof.
  apply (getCurrentPeriodUsage_window (Sample.store ACTIVE false true 40)
           (40 * day) 0%nat (Sample.subscription ACTIVE false) 0
           eq_refl eq_refl).
  reflexivity.
Defined.

(** X6.  No warning without a positive limit.  When the plan has no feature
    for the component, or its limit is [null] or zero, [incrementUsage]
    sends no mail, however high the counter climbs. *)
Theorem incrementUsage_unlimited_never_warns st id sub slug cid c amount ps
    pe :
  subscriptions st !! id = Some sub →
  componentBySlug slug st = Some (cid, c) →
  sub_currentPeriodStart sub = Some ps →
  sub_currentPeriodEnd sub = Some pe →
  match List.filter (λ f, Nat.eqb (pf_aiComponentId (fw_feature f)) cid)
          (featuresOfPlan (sub_planId sub) st) with
  | [] => True
  | feature :: _ =>
      pf_limitValue (fw_feature feature) = None
      ∨ pf_limitValue (fw_feature feature) = Some 0
  end →
  outbox (incrementUsage id slug amount st).2 = outbox st.
Proof.
  intros Hsub Hcomp Hps Hpe Hgrant.
  rewrite (incrementUsage_unfold st id sub slug cid c amount ps pe)
    by assumption.
  destruct (fits (value_or_zero (usageRow id cid ps pe st)) amount);
    [|done].
  set (st1 := counted id cid ps pe amount st).
  assert (Hsame : subscriptions st1 = subscriptions st
                  ∧ featuresOfPlan (sub_planId sub) st1
                    = featuresOfPlan (sub_planId sub) st
                  ∧ outbox st1 = outbox st).
  { subst st1. unfold counted.
    by destruct (usageRow id cid ps pe st) as [[??]|]. }
  destruct Hsame as (Hsubs & Hfeatures & Hout).
  unfold checkQuotaWarnings, subscription_findUnique, plan_features.
  unfold bind at 1. unfold gets at 1. simpl. rewrite Hsubs, Hsub.
  unfold bind at 1. unfold gets at 1. simpl. rewrite Hfeatures.
  destruct (List.filter _ (featuresOfPlan (sub_planId sub) st))
    as [|feature others]; [done|].
  by destruct Hgrant as [-> | ->].
Qed.

(** Professional has no limit on the audit. *)
Lemma incrementUsage_unlimited_never_warns_witness :
  let st :=
    set_subscriptions
      (λ _, [mkSubscription 0 1 (Some "I-SUB0") ACTIVE (Some 0)
               (Some (30 * day)) None None false])
      (Sample.store ACTIVE false true 0) in
  outbox (incrementUsage 0 "financial_audit" 100000 st).2 = outbox st.
Proof.
  exact (incrementUsage_unlimited_never_warns
           (set_subscriptions
              (λ _, [mkSubscription 0 1 (Some "I-SUB0") ACTIVE (Some 0)
                       (Some (30 * day)) None None false])
              (Sample.store ACTIVE false true 0))
           0%nat
           (mkSubscription 0 1 (Some "I-SUB0") ACTIVE (Some 0)
              (Some (30 * day)) None None false)
           "financial_audit" 1%nat (Sample.financial_audit true) 100000 0
           (30 * day) eq_refl eq_refl eq_refl eq_refl (or_introl eq_refl)).
Defined.

(** * Further properties of the guards *)

(** X7.  The subscription gate lets the request through up to and including
    the instant the period ends, and always when no end is set; the request
    then carries the user's first ACTIVE subscription with its plan. *)
Theorem checkSubscription_admits_until_period_end st now req userId id sub
    plan :
  req_user req = Some userId →
  activeSubscriptionOf userId st = Some (id, sub) →
  subscriptionPlans st !! sub_planId sub = Some plan →
  match sub_currentPeriodEnd sub with
  | Some periodEnd => now ≤ periodEnd
  | None => True
  end →
  checkSubscription now req st
  = (Ok (Next,
         mkRequest (Some userId) (Some (mkAttached id sub plan))
           (req_componentQuota req)),
     st).
Proof.
  intros Huser Hfound Hplan Hend.
  unfold checkSubscription, subscription_findFirstActive, include_plan.
  rewrite Huser. unfold tryCatch, bind, gets, ret. simpl.
  rewrite Hfound, Hplan.
  destruct (sub_currentPeriodEnd sub) as [periodEnd|]; [|done].
  by destruct (Z.ltb_spec periodEnd now); [lia|].
Qed.

(** At the very millisecond the period ends. *)
Lemma checkSubscription_admits_until_period_end_witness :
  checkSubscription (30 * day) Sample.request (Sample.store ACTIVE false true 0)
  = (Ok (Next, Sample.checkedRequest), Sample.store ACTIVE false true 0).
Proof.
  apply (checkSubscription_admits_until_period_end
           (Sample.store ACTIVE false true 0) (30 * day) Sample.request
           0%nat 0%nat (Sample.subscription ACTIVE false) Sample.starter
           eq_refl eq_refl eq_refl).
  simpl. reflexivity.
Defined.

(** X8.  [optionalSubscription] never answers the request itself and never
    writes: it always calls [next()].  It attaches the user's first ACTIVE
    subscription without looking at the end of its period. *)
Theorem optionalSubscription_always_next st req :
  (∃ req', optionalSubscription req st = (Ok (Next, req'), st))
  ∧ ∀ userId id sub plan,
      req_user req = Some userId →
      activeSubscriptionOf userId st = Some (id, sub) →
      subscriptionPlans st !! sub_planId sub = Some plan →
      optionalSubscription req st
      = (Ok (Next,
             mkRequest (Some userId) (Some (mkAttached id sub plan))
               (req_componentQuota req)),
         st).
Proof.
  split.
  - unfold optionalSubscription, subscription_findFirstActive, include_plan,
      tryCatch, bind, gets, ret, throw. simpl.
    destruct (req_user req) as [userId|]; simpl; [|eauto].
    destruct (activeSubscriptionOf userId st) as [[id sub]|]; simpl; [|eauto].
    destruct (subscriptionPlans st !! sub_planId sub); simpl; eauto.
  - intros userId id sub plan Huser Hfound Hplan.
    unfold optionalSubscription, subscription_findFirstActive, include_plan.
    rewrite Huser. unfold tryCatch, bind, gets, ret. simpl.
    by rewrite Hfound, Hplan.
Qed.

(** The period ended on day 30; the subscription is attached on day 31,
    where [checkSubscription] refuses. *)
Lemma optionalSubscription_always_next_witness :
  optionalSubscription Sample.request (Sample.store ACTIVE false true 0)
  = (Ok (Next, Sample.checkedRequest), Sample.store ACTIVE false true 0).
Proof.
  exact (proj2 (optionalSubscription_always_next
                  (Sample.store ACTIVE false true 0) Sample.request)
           0%nat 0%nat (Sample.subscription ACTIVE false) Sample.starter
           eq_refl eq_refl eq_refl).
Defined.

(** * Further properties of the subscription service *)

Section Lifecycle.
Context `{DateFns}.

Lemma cancelSubscription_ok st now reachable id sub plan user reason
    immediate :
  subscriptions st !! id = Some sub →
  subscriptionPlans st !! sub_planId sub = Some plan →
  users st !! sub_userId sub = Some user →
  (sub_paypalSubscriptionId sub = None ∨ reachable = true) →
  let row := cancel_data now (sub_status sub) reason immediate sub in
  cancelSubscription now reachable id reason immediate st
  = (Ok row,
     set_outbox
       (λ o, o ++ [CancellationEmail (sub_userId sub) (plan_name plan)
                     immediate])
       (set_subscriptions (λ t, <[id := row]> t) st)).
Proof.
  intros Hsub Hplan Huser Hpaypal row.
  unfold cancelSubscription, subscription_findUnique, include_plan,
    subscription_update, sendCancellationEmail, paypalRequest.
  unfold bind at 1. unfold gets at 1. simpl. rewrite Hsub.
  unfold bind at 1 2. unfold gets at 1. simpl. rewrite Hplan. simpl.
  assert (Hcall : (match sub_paypalSubscriptionId sub with
                   | Some _ => if reachable then ret tt
                               else throw "PayPal API error"
                   | None => ret tt
                   end) st = (Ok tt, st)).
  { destruct Hpaypal as [-> | ->]; [done|].
    by destruct (sub_paypalSubscriptionId sub). }
  unfold bind at 1. rewrite Hcall.
  unfold bind at 1. rewrite Hsub.
  unfold bind at 1.
  rewrite (send_ok _ _ _ user) by done. reflexivity.
Qed.

(** X10.  Cancellation goes to PayPal first.  When the subscription has a
    PayPal id and PayPal does not answer, or when the id names no
    subscription, [cancelSubscription] throws and nothing is written: the
    subscription is not cancelled locally either. *)
Theorem cancelSubscription_failure_writes_nothing st now id reason immediate
    reachable :
  subscriptions st !! id = None
  ∨ (∃ sub paypalId,
       subscriptions st !! id = Some sub
       ∧ sub_paypalSubscriptionId sub = Some paypalId
       ∧ reachable = false) →
  ∃ message,
    cancelSubscription now reachable id reason immediate st
    = (Thrown message, st).
Proof.
  intros [Hnone | (sub & paypalId & Hsub & Hpaypal & ->)];
    unfold cancelSubscription, subscription_findUnique, include_plan,
      paypalRequest, bind, gets, ret, throw; simpl.
  - rewrite Hnone. eauto.
  - rewrite Hsub.
    destruct (subscriptionPlans st !! sub_planId sub); simpl; [|eauto].
    rewrite Hpaypal. eauto.
Qed.

(** The only row that satisfies a filter is the row the lookup finds,
    whatever the order of the rows. *)
Lemma find_first_only {A} (p : A → bool) rows i x :
  rows !! i = Some x → p x = true →
  (∀ j y, rows !! j = Some y → p y = true → j = i) →
  find_first p rows = Some (i, x).
Proof.
  intros Hl Hx Honly.
  destruct (find_first p rows) as [[j y]|] eqn:Hfound.
  - apply find_first_Some in Hfound as [Hl' Hy].
    pose proof (Honly j y Hl' Hy) as ->. congruence.
  - pose proof (find_first_None _ _ Hfound i x Hl). congruence.
Qed.

(** X11.  Cancellation and the subscription gate.  After a cancellation
    that went through, an immediate one takes the subscription out of the
    gate's reach for good, for every user.  A deferred one leaves it ACTIVE
    and flagged [cancelAtPeriodEnd]; when it is the owner's only ACTIVE
    subscription before the call it is so after it, so that it is the one
    the gate finds for the owner, in whatever order the table is read. *)
Theorem cancelSubscription_and_the_gate st now id sub plan user reason
    immediate :
  subscriptions st !! id = Some sub →
  sub_status sub = ACTIVE →
  subscriptionPlans st !! sub_planId sub = Some plan →
  users st !! sub_userId sub = Some user →
  let st' := (cancelSubscription now true id reason immediate st).2 in
  let only_active (table : list Subscription) :=
    ∀ other s, table !! other = Some s →
               sub_userId s = sub_userId sub → sub_status s = ACTIVE →
               other = id in
  if immediate then
    ∀ userId found s, activeSubscriptionOf userId st' = Some (found, s) →
                      found ≠ id
  else
    only_active (subscriptions st) →
    ∃ row,
      subscriptions st' !! id = Some row
      ∧ sub_userId row = sub_userId sub
      ∧ sub_status row = ACTIVE ∧ sub_cancelAtPeriodEnd row = true
      ∧ only_active (subscriptions st')
      ∧ activeSubscriptionOf (sub_userId sub) st' = Some (id, row).
Proof.
  intros Hsub Hstatus Hplan Huser st' only_active.
  assert (Hsubs : subscriptions st'
                  = <[id := cancel_data now (sub_status sub) reason immediate
                              sub]> (subscriptions st)).
  { subst st'.
    by rewrite (cancelSubscription_ok st now true id sub plan user reason
                  immediate Hsub Hplan Huser (or_intror eq_refl)). }
  assert (Hlt : (id < length (subscriptions st))%nat)
    by (by eapply lookup_lt_Some).
  destruct immediate.
  - intros userId found s Hactive Heq. subst found.
    apply activeSubscriptionOf_Some in Hactive as (Hrow & _ & Hs).
    rewrite Hsubs, list_lookup_insert_eq in Hrow by done.
    inversion Hrow; subst. discriminate.
  - intros Honly.
    set (row := cancel_data now (sub_status sub) reason false sub) in *.
    assert (Hrow : subscriptions st' !! id = Some row)
      by (by rewrite Hsubs, list_lookup_insert_eq).
    assert (Honly' : only_active (subscriptions st')).
    { intros other s Hl Howner Hactive.
      destruct (decide (other = id)) as [|Hne]; [done|].
      rewrite Hsubs, list_lookup_insert_ne in Hl by done.
      by apply (Honly other s). }
    exists row. repeat split; try done.
    unfold activeSubscriptionOf.
    apply find_first_only; [done|..].
    + subst row. simpl. by rewrite Nat.eqb_refl, Hstatus.
    + intros other s Hl Hs.
      apply andb_true_iff in Hs as [Howner Hactive].
      apply Nat.eqb_eq in Howner.
      apply (Honly' other s Hl Howner). by destruct (sub_status s).
Qed.

(** X12.  Activation asks PayPal before it writes.  When PayPal does not
    answer, or no subscription carries the PayPal id, [activateSubscription]
    throws and leaves the store as it was. *)
Theorem activateSubscription_failure_writes_nothing st now reachable
    paypalId :
  reachable = false ∨ subscriptionByPaypalId paypalId st = None →
  ∃ message,
    activateSubscription now reachable paypalId st = (Thrown message, st).
Proof.
  intros Hfail.
  unfold activateSubscription, subscription_findByPaypalId, include_plan,
    paypalRequest, bind, gets, ret, throw; simpl.
  destruct (subscriptionByPaypalId paypalId st) as [[id sub]|] eqn:Hfound;
    simpl; [|eauto].
  destruct Hfail as [-> | Hnone]; [|discriminate].
  destruct (subscriptionPlans st !! sub_planId sub); simpl; eauto.
Qed.

End Lifecycle.

(** PayPal is down when the owner asks for an immediate cancellation. *)
Lemma cancelSubscription_failure_writes_nothing_witness :
  ∃ message,
    cancelSubscription (12 * day) false 0 None true
      (Sample.store ACTIVE false true 10)
    = (Thrown message, Sample.store ACTIVE false true 10).
Proof.
  apply (cancelSubscription_failure_writes_nothing
           (Sample.store ACTIVE false true 10) (12 * day) 0%nat None true
           false).
  right. exists (Sample.subscription ACTIVE false), "I-SUB0". by repeat split.
Defined.

(** The owner cancels for the end of the period: still found.  The table
    also holds a CANCELLED subscription of the owner and the ACTIVE one of
    another user. *)
Lemma cancelSubscription_and_the_gate_witness :
  let st :=
    set_subscriptions
      (λ t, [mkSubscription 0 1 (Some "I-OLD") CANCELLED None None None
               None false;
             mkSubscription 1 0 (Some "I-SUB1") ACTIVE (Some 0)
               (Some (30 * day)) None None false] ++ t)
      (Sample.store ACTIVE false true 10) in
  let st' := (cancelSubscription (12 * day) true 2 None false st).2 in
  ∃ row,
    subscriptions st' !! 2%nat = Some row
    ∧ sub_status row = ACTIVE ∧ sub_cancelAtPeriodEnd row = true
    ∧ activeSubscriptionOf 0 st' = Some (2%nat, row).
Proof.
  intros st st'.
  destruct (cancelSubscription_and_the_gate st (12 * day) 2%nat
              (Sample.subscription ACTIVE false) Sample.starter
              (mkUser "owner@example.com") None false
              eq_refl eq_refl eq_refl eq_refl)
    as (row & Hrow & _ & Hstatus & Hflag & _ & Hgate).
  - intros [|[|[|other]]] s Hl Howner Hactive; simpl in Hl;
      try discriminate Hl; injection Hl as <-;
      try reflexivity; discriminate.
  - exists row. repeat split; assumption.
Defined.

(** The approval comes back while PayPal is down. *)
Lemma activateSubscription_failure_writes_nothing_witness :
  ∃ message,
    activateSubscription 7 false "I-SUB0" (Sample.store PENDING false true 0)
    = (Thrown message, Sample.store PENDING false true 0).
Proof.
  exact (activateSubscription_failure_writes_nothing
           (Sample.store PENDING false true 0) 7 false "I-SUB0"
           (or_introl eq_refl)).
Defined.


(** ** A fresh period *)

Lemma initializeUsage_appends_zero_rows st id periodStart periodEnd :
  ∃ rows,
    usageTracking (initializeUsageForSubscription id periodStart periodEnd st).2
    = usageTracking st ++ rows
    ∧ Forall (λ u, ut_value u = 0) rows.
Proof.
  unfold initializeUsageForSubscription, subscription_findUnique,
    plan_features, usageTracking_createMany, bind, gets, ret, throw, modify.
  simpl. destruct (subscriptions st !! id) as [sub|]; simpl.
  - match goal with
    | |- context [match ?entries with [] => _ | _ :: _ => _ end] =>
        exists entries; destruct entries as [|u rest] eqn:Hentries
    end.
    + split; [by rewrite app_nil_r|constructor].
    + split; [done|]. rewrite <- Hentries. apply Forall_forall.
      intros u' Hin. apply list_elem_of_fmap in Hin as (f & -> & _). done.
  - exists []. split; [by rewrite app_nil_r|constructor].
Qed.

Section FreshPeriod.
Context `{DateFns}.

Lemma activateSubscription_effect st now paypalId id sub plan :
  subscriptionByPaypalId paypalId st = Some (id, sub) →
  subscriptionPlans st !! sub_planId sub = Some plan →
  let st' := (activateSubscription now true paypalId st).2 in
  let row :=
    set_period (Some ACTIVE) now
      (periodEndFor (plan_billingPeriod plan) now) sub in
  subscriptions st' = <[id := row]> (subscriptions st)
  ∧ ∃ rows,
      usageTracking st' = usageTracking st ++ rows
      ∧ Forall (λ u, ut_value u = 0) rows.
Proof.
  intros Hfound Hplan st' row. subst st'.
  pose proof (subscriptionByPaypalId_Some _ _ _ _ Hfound) as Hrow.
  unfold activateSubscription, subscription_findByPaypalId, include_plan,
    paypalRequest, subscription_update, sendWelcomeEmail.
  unfold bind, gets, ret. simpl.
  rewrite Hfound. simpl. rewrite Hplan. simpl. rewrite Hrow. simpl.
  fold row.
  match goal with
  | |- context [initializeUsageForSubscription ?i ?a ?b ?st1] =>
      pose proof (initializeUsage_preserves subscriptions i a b
                    (λ _ _, eq_refl) st1) as Hsubs;
      destruct (initializeUsage_appends_zero_rows st1 i a b)
        as (rows & Husage & Hzero);
      destruct (initializeUsageForSubscription i a b st1) as [[[]|e] st2]
  end; simpl in *; [|by eauto].
  match goal with
  | |- context [send ?mail ?user ?st2] =>
      pose proof (send_preserves subscriptions mail user
                    (λ _ _, eq_refl) st2) as Hsend;
      pose proof (send_preserves usageTracking mail user
                    (λ _ _, eq_refl) st2) as Hsendu;
      destruct (send mail user st2) as [[[]|e] st3]
  end; simpl in *; rewrite Hsend, Hsendu; eauto.
Qed.

(** X13.  Activation opens the period with every counter at zero.  After an
    activation that PayPal confirmed, the subscription is ACTIVE and
    [getComponentUsage] reads 0 for every component, provided no counter of
    the subscription already carries the new period's start. *)
Theorem activation_starts_counters_at_zero st now paypalId id sub plan
    aiComponentId :
  subscriptionByPaypalId paypalId st = Some (id, sub) →
  subscriptionPlans st !! sub_planId sub = Some plan →
  (∀ row u, usageTracking st !! row = Some u →
            ut_subscriptionId u = id → ut_periodStart u ≠ now) →
  let st' := (activateSubscription now true paypalId st).2 in
  sub_status <$> subscriptions st' !! id = Some ACTIVE
  ∧ getComponentUsage id aiComponentId st' = (Ok 0, st').
Proof.
  intros Hfound Hplan Hfresh st'.
  destruct (activateSubscription_effect st now paypalId id sub plan
              Hfound Hplan) as (Hsubs & rows & Husage & Hzero).
  fold st' in Hsubs, Husage.
  pose proof (subscriptionByPaypalId_Some _ _ _ _ Hfound) as Hrow.
  assert (Hnew : subscriptions st' !! id
                 = Some (set_period (Some ACTIVE) now
                           (periodEndFor (plan_billingPeriod plan) now) sub)).
  { rewrite Hsubs. apply list_lookup_insert_eq. by eapply lookup_lt_Some. }
  split; [by rewrite Hnew|].
  rewrite (getComponentUsage_value st' id _ aiComponentId now
             (periodEndFor (plan_billingPeriod plan) now) Hnew)
    by reflexivity.
  do 2 f_equal. unfold usageRow. rewrite Husage.
  destruct (find_first _ (usageTracking st ++ rows)) as [[i u]|] eqn:Hfirst;
    [|done].
  rewrite value_or_zero_Some.
  apply find_first_Some in Hfirst as [Hl Hmatch].
  apply list_elem_of_lookup_2, elem_of_app in Hl as [Hold | Hinit].
  - exfalso. apply list_elem_of_lookup_1 in Hold as [row Hold].
    unfold usage_matches in Hmatch.
    apply andb_prop in Hmatch as [Hmatch _].
    apply andb_prop in Hmatch as [Hmatch Hstart].
    apply andb_prop in Hmatch as [Hid _].
    apply Nat.eqb_eq in Hid. apply Z.eqb_eq in Hstart.
    by apply (Hfresh row u).
  - by apply (proj1 (Forall_forall _ _) Hzero).
Qed.

End FreshPeriod.

(** Scenario B: the PENDING subscription is activated on day 45; the ten
    uses of the period that started on day 0 no longer count. *)
Lemma activation_starts_counters_at_zero_witness :
  let st' :=
    (activateSubscription (45 * day) true "I-SUB0"
       (Sample.store PENDING false true 10)).2 in
  sub_status <$> subscriptions st' !! 0%nat = Some ACTIVE
  ∧ getComponentUsage 0 0 st' = (Ok 0, st').
Proof.
  refine (activation_starts_counters_at_zero
            (Sample.store PENDING false true 10) (45 * day) "I-SUB0" 0%nat
            (Sample.subscription PENDING false) Sample.starter 0%nat
            eq_refl eq_refl _).
  intros [|row] u Hrow _; simpl in Hrow; inversion Hrow; subst.
  discriminate.
Defined.


(** ** Subscribing and changing plan *)

Lemma filter_nil_of_find_from_None {A} (p : A → bool) k rows :
  find_from p k rows = None → List.filter p rows = [].
Proof.
  revert k. induction rows as [|r rest IH]; intros k Hf; simpl in *; [done|].
  destruct (p r); [discriminate|]. by eapply IH.
Qed.

(** What [createSubscription] does to the table: nothing, or one PENDING row
    without period for a user who had no open subscription. *)
Lemma createSubscription_subscriptions plan_isActive plan_isCustomPricing
    paypalAnswer userId planId st :
  let st' :=
    (createSubscription plan_isActive plan_isCustomPricing paypalAnswer
       userId planId st).2 in
  subscriptions st' = subscriptions st
  ∨ (openSubscriptionOf userId st = None
     ∧ ∃ paypalId,
         subscriptions st'
         = subscriptions st
           ++ [mkSubscription userId planId paypalId PENDING
                 None None None None false]).
Proof.
  unfold createSubscription, subscription_create, paypalCreate,
    bind, gets, ret, throw. simpl.
  destruct (subscriptionPlans st !! planId); simpl; [|by left].
  destruct (plan_isActive planId); simpl; [|by left].
  destruct (openSubscriptionOf userId st) eqn:Hopen; simpl; [by left|].
  destruct (users st !! userId); simpl; [|by left].
  destruct (plan_isCustomPricing planId); simpl.
  - right. split; [done|]. by exists None.
  - destruct paypalAnswer as [[paypalId url]|]; simpl; [|by left].
    destruct (subscriptionByPaypalId paypalId st) as [[??]|]; simpl;
      [by left|].
    right. split; [done|]. by exists (Some paypalId).
Qed.

(** X14.  [createSubscription] keeps the rule of one open subscription per
    user: if no user has more than one subscription that is PENDING or
    ACTIVE before the call, none has after it, whether the call returns or
    throws. *)
Theorem createSubscription_one_open_subscription plan_isActive
    plan_isCustomPricing paypalAnswer userId planId st :
  (∀ user, (length (List.filter (isOpenFor user) (subscriptions st)) ≤ 1)%nat) →
  ∀ user,
    (length
       (List.filter (isOpenFor user)
          (subscriptions
             (createSubscription plan_isActive plan_isCustomPricing
                paypalAnswer userId planId st).2)) ≤ 1)%nat.
Proof.
  intros Hone user.
  destruct (createSubscription_subscriptions plan_isActive
              plan_isCustomPricing paypalAnswer userId planId st)
    as [-> | (Hopen & paypalId & ->)]; [apply Hone|].
  rewrite List.filter_app, length_app. simpl.
  unfold isOpenFor at 2. simpl.
  destruct (Nat.eqb_spec userId user) as [<-|Hne]; simpl.
  - unfold openSubscriptionOf, find_first in Hopen.
    by rewrite (filter_nil_of_find_from_None _ _ _ Hopen).
  - rewrite Nat.add_0_r. apply Hone.
Qed.

(** The owner of an ACTIVE subscription asks for a second one. *)
Lemma createSubscription_one_open_subscription_witness :
  (length
     (List.filter (isOpenFor 0)
        (subscriptions
           (createSubscription (λ _, true) (λ _, false)
              (Some ("I-SUB1", "https://paypal.example/approve"))
              0 1 (Sample.store ACTIVE false true 0)).2)) ≤ 1)%nat.
Proof.
  apply (createSubscription_one_open_subscription (λ _, true) (λ _, false)
           (Some ("I-SUB1", "https://paypal.example/approve")) 0%nat 1%nat
           (Sample.store ACTIVE false true 0)).
  intros user. simpl. destruct (isOpenFor user _); simpl; lia.
Defined.

Lemma changeSubscriptionPlan_ok plan_isActive st id sub plan user newPlanId
    newPlan oldPaypalId newPaypalId url :
  subscriptions st !! id = Some sub →
  subscriptionPlans st !! sub_planId sub = Some plan →
  sub_paypalSubscriptionId sub = Some oldPaypalId →
  subscriptionPlans st !! newPlanId = Some newPlan →
  plan_isActive newPlanId = true →
  users st !! sub_userId sub = Some user →
  paypalId_taken (Some newPaypalId) (Some id) st = false →
  let row := replan_data newPlanId newPaypalId sub in
  changeSubscriptionPlan plan_isActive true (Some (newPaypalId, url)) id
    newPlanId st
  = (Ok row, set_subscriptions (λ t, <[id := row]> t) st).
Proof.
  intros Hsub Hplan Hpaypal Hnew Hactive Huser Hfree row.
  unfold changeSubscriptionPlan, subscription_findUnique, include_plan,
    paypalRequest, paypalCreate, subscription_update,
    bind, gets, ret, throw. simpl.
  rewrite Hsub. simpl. rewrite Hplan. simpl. rewrite Hnew, Hactive. simpl.
  rewrite Hpaypal. simpl. rewrite Huser. simpl.
  unfold paypalId_taken in Hfree. rewrite Hfree.
  by rewrite Hsub.
Qed.

(** X15.  A change of plan on a PayPal-backed subscription puts it back to
    PENDING, under the new plan and the new PayPal id, whatever its status
    was; period and counters stay.  From then on the subscription gate no
    longer finds it, for any user. *)
Theorem changeSubscriptionPlan_suspends_access plan_isActive st id sub plan
    user newPlanId newPlan oldPaypalId newPaypalId url :
  subscriptions st !! id = Some sub →
  subscriptionPlans st !! sub_planId sub = Some plan →
  sub_paypalSubscriptionId sub = Some oldPaypalId →
  subscriptionPlans st !! newPlanId = Some newPlan →
  plan_isActive newPlanId = true →
  users st !! sub_userId sub = Some user →
  paypalId_taken (Some newPaypalId) (Some id) st = false →
  let st' :=
    (changeSubscriptionPlan plan_isActive true (Some (newPaypalId, url)) id
       newPlanId st).2 in
  subscriptions st' !! id
    = Some (mkSubscription (sub_userId sub) newPlanId (Some newPaypalId)
              PENDING (sub_currentPeriodStart sub) (sub_currentPeriodEnd sub)
              (sub_cancelledAt sub) (sub_cancellationReason sub)
              (sub_cancelAtPeriodEnd sub))
  ∧ usageTracking st' = usageTracking st
  ∧ ∀ userId found s, activeSubscriptionOf userId st' = Some (found, s) →
                      found ≠ id.
Proof.
  intros Hsub Hplan Hpaypal Hnew Hactive Huser Hfree st'. subst st'.
  rewrite (changeSubscriptionPlan_ok plan_isActive st id sub plan user
             newPlanId newPlan oldPaypalId newPaypalId url) by assumption.
  simpl.
  assert (Hrow : <[id := replan_data newPlanId newPaypalId sub]>
                   (subscriptions st) !! id
                 = Some (replan_data newPlanId newPaypalId sub)).
  { apply list_lookup_insert_eq. by eapply lookup_lt_Some. }
  split; [exact Hrow|]. split; [done|].
  intros userId found s Hfound Heq. subst found.
  apply activeSubscriptionOf_Some in Hfound as (Hl & _ & Hs).
  simpl in Hl. rewrite Hrow in Hl. inversion Hl; subst. discriminate.
Qed.

(** The owner of the ACTIVE Starter subscription moves to Professional. *)
Lemma changeSubscriptionPlan_suspends_access_witness :
  let st' :=
    (changeSubscriptionPlan (λ _, true) true
       (Some ("I-SUB1", "https://paypal.example/approve")) 0 1
       (Sample.store ACTIVE false true 10)).2 in
  subscriptions st' !! 0%nat
    = Some (mkSubscription 0 1 (Some "I-SUB1") PENDING (Some 0)
              (Some (30 * day)) None None false)
  ∧ usageTracking st' = usageTracking (Sample.store ACTIVE false true 10)
  ∧ ∀ userId found s, activeSubscriptionOf userId st' = Some (found, s) →
                      found ≠ 0%nat.
Proof.
  exact (changeSubscriptionPlan_suspends_access (λ _, true)
           (Sample.store ACTIVE false true 10) 0%nat
           (Sample.subscription ACTIVE false) Sample.starter
           (mkUser "owner@example.com") 1%nat Sample.professional
           "I-SUB0" "I-SUB1" "https://paypal.example/approve"
           eq_refl eq_refl eq_refl eq_refl eq_refl eq_refl eq_refl).
Defined.

(** * Further properties of the webhook route *)

Section Route.
Context `{DateFns}.

(** Rows with another [eventId] are not touched by [updateMany]. *)
Lemma updateMany_other_ids eventId data (events : list PayPalEvent) :
  existsb (λ e, String.eqb (ev_eventId e) eventId) events = false →
  map (λ e, if String.eqb (ev_eventId e) eventId then data e else e) events
  = events.
Proof.
  induction events as [|e rest IH]; simpl; [done|].
  destruct (String.eqb (ev_eventId e) eventId); simpl; [discriminate|].
  intros Hrest. by rewrite IH.
Qed.

(** A verified delivery of a new [eventId]: the row is filed, the handler
    runs, and the row is marked by what the handler did. *)
Lemma postPaypal_fresh d st :
  d_signatureValid d = true →
  eventId_recorded (wh_id (d_event d)) st = false →
  postPaypal d st
  = match processEvent (d_now d) (d_paypalReachable d) (d_event d)
            (set_payPalEvents
               (λ t, t ++ [mkEvent (wh_event_type (d_event d))
                             (wh_id (d_event d)) false None None])
               st) with
    | (Ok _, st2) =>
        (Ok 200,
         (payPalEvent_updateMany (wh_id (d_event d))
            (mark_processed (d_now d)) st2).2)
    | (Thrown message, st2) =>
        (Ok 500,
         if String.eqb (wh_id (d_event d)) "" then st2
         else
           (payPalEvent_updateMany (wh_id (d_event d)) (mark_failed message)
              st2).2)
    end.
Proof.
  intros Hvalid Hrecorded. unfold postPaypal. rewrite Hvalid. simpl.
  unfold tryCatch, bind at 1, payPalEvent_create. simpl.
  rewrite Hrecorded. simpl.
  unfold bind at 1.
  match goal with
  | |- context [processEvent ?n ?r ?ev ?st1] =>
      destruct (processEvent n r ev st1) as [[[]|e] st2]
  end; simpl; [done|].
  unfold bind. by destruct (String.eqb (wh_id (d_event d)) "").
Qed.

(** The ledger after the row of a new [eventId] was filed and marked. *)
Lemma ledger_marked eventId data row (events : list PayPalEvent) :
  existsb (λ e, String.eqb (ev_eventId e) eventId) events = false →
  ev_eventId row = eventId →
  map (λ e, if String.eqb (ev_eventId e) eventId then data e else e)
    (events ++ [row])
  = events ++ [data row].
Proof.
  intros Hnew Hrow. rewrite map_app. simpl.
  rewrite Hrow, String.eqb_refl. f_equal.
  by apply updateMany_other_ids.
Qed.

(** X16.  What the route answers and what it leaves in the ledger.  A
    delivery whose signature does not verify is answered 401 and changes
    nothing.  A verified delivery of an [eventId] on record is answered
    500.  A verified delivery of a new [eventId] adds one ledger row.  When
    the handler raises nothing, which is so for a body with [resource]
    (and [amount], for a payment) and for an event type without handler, the
    answer is 200 and the row is marked processed at the instant of the
    delivery, without error message, whatever failed inside the handler.
    When the body has no [resource] and the event type has a handler, the
    handler raises: the answer is 500, the row stays unprocessed and
    carries the error message, and no subscription, counter or mail is
    written. *)
Theorem postPaypal_answer_and_ledger d st :
  let event := d_event d in
  let recorded := eventId_recorded (wh_id event) st in
  let answer := (postPaypal d st).1 in
  let st' := (postPaypal d st).2 in
  (d_signatureValid d = false → answer = Ok 401 ∧ st' = st)
  ∧ (d_signatureValid d = true → recorded = true → answer = Ok 500)
  ∧ (d_signatureValid d = true → recorded = false →
     (wh_event_type event ∉ handledEventTypes
      ∨ ∃ resource,
          wh_resource event = Some resource
          ∧ (wh_event_type event = "PAYMENT.SALE.COMPLETED" →
             is_Some (res_amount_total resource))) →
     answer = Ok 200
     ∧ payPalEvents st'
       = payPalEvents st
         ++ [mkEvent (wh_event_type event) (wh_id event) true
               (Some (d_now d)) None])
  ∧ (d_signatureValid d = true → recorded = false →
     wh_resource event = None →
     wh_event_type event ∈ handledEventTypes →
     answer = Ok 500
     ∧ subscriptions st' = subscriptions st
     ∧ usageTracking st' = usageTracking st
     ∧ outbox st' = outbox st
     ∧ ∃ message,
         payPalEvents st'
         = payPalEvents st
           ++ [mkEvent (wh_event_type event) (wh_id event) false None
                 (if String.eqb (wh_id event) "" then None
                  else Some message)]).
Proof.
  intros event recorded answer st'. subst event recorded answer st'.
  split; [|split; [|split]].
  - intros Hvalid. unfold postPaypal. by rewrite Hvalid.
  - intros Hvalid Hrecorded.
    by rewrite (postPaypal_duplicate d st Hrecorded), Hvalid.
  - intros Hvalid Hrecorded Hquiet.
    rewrite (postPaypal_fresh d st Hvalid Hrecorded).
    match goal with
    | |- context [processEvent ?n ?r ?ev ?st1] =>
        assert (Hok : (processEvent n r ev st1).1 = Ok tt);
        [|pose proof (processEvent_preserves payPalEvents n r ev
                        (λ _ _, eq_refl) (λ _ _, eq_refl) (λ _ _, eq_refl)
                        st1) as Hkeep;
          destruct (processEvent n r ev st1) as [[[]|e] st2]]
    end; simpl in *; [|clear Hok|discriminate].
    + destruct Hquiet as [Hother | (resource & Hresource & Hamount)];
        [|by eapply processEvent_ok].
      unfold processEvent. unfold handledEventTypes in Hother.
      repeat match goal with
             | |- context [if String.eqb ?a ?b then _ else _] =>
                 destruct (String.eqb_spec a b) as [Heq|_];
                 [exfalso; apply Hother; rewrite Heq;
                  repeat ((by apply list_elem_of_here)
                          || apply list_elem_of_further)|]
             end.
      reflexivity.
    + split; [done|]. rewrite Hkeep. simpl. by apply ledger_marked.
  - intros Hvalid Hrecorded Hresource Htype.
    rewrite (postPaypal_fresh d st Hvalid Hrecorded).
    destruct (processEvent_no_resource (d_now d) (d_paypalReachable d)
                (d_event d) Hresource Htype) as [message Hthrown].
    rewrite Hthrown.
    split; [done|]. split; [by destruct (String.eqb _ _)|].
    split; [by destruct (String.eqb _ _)|].
    split; [by destruct (String.eqb _ _)|].
    exists message.
    destruct (String.eqb (wh_id (d_event d)) ""); simpl; [done|].
    by apply ledger_marked.
Qed.

(** X17.  A completed payment renews from any status.  The subscription
    that carries the billing agreement id becomes ACTIVE with the period
    that starts at the instant of the event, whatever its status was, and
    its owner, when on file, is sent one receipt. *)
Theorem payment_completed_renews st now reachable event resource agreement
    total id sub plan :
  wh_event_type event = "PAYMENT.SALE.COMPLETED" →
  wh_resource event = Some resource →
  res_billing_agreement_id resource = Str agreement →
  res_amount_total resource = Some total →
  subscriptionByPaypalId agreement st = Some (id, sub) →
  subscriptionPlans st !! sub_planId sub = Some plan →
  let st' := (processEvent now reachable event st).2 in
  subscriptions st'
  = <[id := set_period (Some ACTIVE) now
              (periodEndFor (plan_billingPeriod plan) now) sub]>
      (subscriptions st)
  ∧ (is_Some (users st !! sub_userId sub) →
     outbox st'
     = outbox st
       ++ [PaymentReceipt (sub_userId sub) total (plan_name plan)]).
Proof.
  intros Htype Hresource Hagreement Htotal Hfound Hplan st'. subst st'.
  pose proof (subscriptionByPaypalId_Some _ _ _ _ Hfound) as Hrow.
  unfold processEvent. rewrite Htype. simpl.
  unfold handlePaymentCompleted, resource_of, subscription_findFirstWhere,
    include_plan, subscription_update, resetQuotas, subscription_findUnique,
    sendPaymentReceipt.
  rewrite Hresource.
  unfold tryCatch, bind, gets, ret. simpl.
  rewrite Htotal. simpl. rewrite Hagreement. simpl.
  rewrite Hfound. simpl. rewrite Hplan. simpl. rewrite Hrow. simpl.
  match goal with
  | |- context [initializeUsageForSubscription ?i ?a ?b ?st1] =>
      pose proof (initializeUsage_preserves subscriptions i a b
                    (λ _ _, eq_refl) st1) as Hsubs;
      pose proof (initializeUsage_preserves outbox i a b
                    (λ _ _, eq_refl) st1) as Hout;
      pose proof (initializeUsage_preserves users i a b
                    (λ _ _, eq_refl) st1) as Husers;
      assert (Hinit : (initializeUsageForSubscription i a b st1).1 = Ok tt);
      [|destruct (initializeUsageForSubscription i a b st1) as [[[]|e] st2]]
  end; simpl in *; [|clear Hinit|discriminate].
  { unfold initializeUsageForSubscription, subscription_findUnique,
      plan_features, usageTracking_createMany, bind, gets, ret, modify.
    simpl. rewrite list_lookup_insert_eq by (by eapply lookup_lt_Some).
    simpl.
    by match goal with
       | |- context [match ?entries with [] => _ | _ :: _ => _ end] =>
           destruct entries
       end. }
  match goal with
  | |- context [send ?mail ?user ?st2] =>
      pose proof (send_preserves subscriptions mail user
                    (λ _ _, eq_refl) st2) as Hsend;
      pose proof (λ u Hu, send_ok st2 mail user u Hu) as Hmail;
      destruct (send mail user st2) as [[[]|e] st3] eqn:Hsent
  end; simpl in *; rewrite Hsend, Hsubs; (split; [done|]);
    intros [user Huser]; rewrite <- Husers in Huser;
    specialize (Hmail user Huser); inversion Hmail; subst; simpl;
    by rewrite Hout.
Qed.

(** X18.  A failed payment only sends a mail.  The event
    BILLING.SUBSCRIPTION.PAYMENT.FAILED changes no subscription and no
    counter: the subscription keeps its status.  When the subscription it
    names and its owner are on file, the owner is sent one payment-failed
    mail. *)
Theorem payment_failed_only_mails st now reachable event :
  wh_event_type event = "BILLING.SUBSCRIPTION.PAYMENT.FAILED" →
  let st' := (processEvent now reachable event st).2 in
  subscriptions st' = subscriptions st
  ∧ usageTracking st' = usageTracking st
  ∧ ∀ resource paypalId id sub,
      wh_resource event = Some resource →
      res_id resource = Str paypalId →
      subscriptionByPaypalId paypalId st = Some (id, sub) →
      is_Some (users st !! sub_userId sub) →
      outbox st' = outbox st ++ [PaymentFailedEmail (sub_userId sub)].
Proof.
  intros Htype st'. subst st'.
  unfold processEvent. rewrite Htype. simpl.
  unfold handlePaymentFailed, resource_of, subscription_findFirstWhere,
    sendPaymentFailedEmail.
  destruct (wh_resource event) as [resource|] eqn:Hresource;
    [|repeat split; intros; discriminate].
  unfold tryCatch, bind, gets, ret. simpl.
  destruct (subscriptionWhere (res_id resource) st)
    as [[id sub]|] eqn:Hwhere; simpl.
  - pose proof (send_preserves subscriptions
                  (PaymentFailedEmail (sub_userId sub)) (sub_userId sub)
                  (λ _ _, eq_refl) st) as Hsubs.
    pose proof (send_preserves usageTracking
                  (PaymentFailedEmail (sub_userId sub)) (sub_userId sub)
                  (λ _ _, eq_refl) st) as Husage.
    pose proof (λ u Hu, send_ok st (PaymentFailedEmail (sub_userId sub))
                          (sub_userId sub) u Hu) as Hmail.
    destruct (send (PaymentFailedEmail (sub_userId sub)) (sub_userId sub) st)
      as [[[]|e] st1]; simpl in *; (split; [done|]); (split; [done|]);
      intros resource' paypalId id' sub' [= <-] Hid Hfound [user Huser];
      rewrite Hid in Hwhere; simpl in Hwhere; rewrite Hfound in Hwhere;
      injection Hwhere as <- <-;
      specialize (Hmail user Huser); by inversion Hmail.
  - repeat split. intros resource' paypalId id sub [= <-] Hid Hfound.
    rewrite Hid in Hwhere. simpl in Hwhere. congruence.
Qed.

End Route.

(** An activation for a PayPal id nobody holds: the handler fails inside,
    the event is filed as processed and the answer is 200. *)
Lemma postPaypal_answer_and_ledger_witness :
  let d :=
    mkDelivery
      (mkWebhook "evt-9" "BILLING.SUBSCRIPTION.ACTIVATED"
         (Some (mkResource (Str "I-NONE") Undefined None)))
      true true (3 * day) in
  (postPaypal d (Sample.store ACTIVE false true 0)).1 = Ok 200
  ∧ payPalEvents (postPaypal d (Sample.store ACTIVE false true 0)).2
    = [mkEvent "BILLING.SUBSCRIPTION.ACTIVATED" "evt-9" true (Some (3 * day))
         None].
Proof.
  refine (proj1 (proj2 (proj2 (postPaypal_answer_and_ledger
                                 (mkDelivery
                                    (mkWebhook "evt-9"
                                       "BILLING.SUBSCRIPTION.ACTIVATED"
                                       (Some (mkResource (Str "I-NONE")
                                                Undefined None)))
                                    true true (3 * day))
                                 (Sample.store ACTIVE false true 0))))
            eq_refl eq_refl _).
  right. exists (mkResource (Str "I-NONE") Undefined None).
  split; [reflexivity|]. intros Htype. discriminate Htype.
Defined.

(** A cancellation whose body has no [resource]: the handler raises, the
    answer is 500, the row is filed as failed and the subscription stays. *)
Example postPaypal_without_resource :
  let d :=
    mkDelivery (mkWebhook "evt-7" "BILLING.SUBSCRIPTION.CANCELLED" None)
      true true (3 * day) in
  let st := Sample.store ACTIVE false true 0 in
  (postPaypal d st).1 = Ok 500
  ∧ subscriptions (postPaypal d st).2 = subscriptions st
  ∧ payPalEvents (postPaypal d st).2
    = [mkEvent "BILLING.SUBSCRIPTION.CANCELLED" "evt-7" false None
         (Some "Cannot read properties of undefined (reading 'id')")].
Proof. repeat split. Qed.

(** A cancellation whose [resource] holds no [id]: the lookup is not
    filtered and the subscription "I-SUB0", which the event does not name,
    is cancelled. *)
Example cancellation_without_id :
  let event :=
    mkWebhook "evt-8" "BILLING.SUBSCRIPTION.CANCELLED"
      (Some (mkResource Undefined Undefined None)) in
  subscriptions
    (processEvent 7 true event (Sample.store ACTIVE false true 0)).2
  = [set_cancelled 7 (Sample.subscription ACTIVE false)].
Proof. reflexivity. Qed.

(** The first payment after a cancellation brings the subscription back. *)
Lemma payment_completed_renews_witness :
  let event :=
    mkWebhook "evt-3" "PAYMENT.SALE.COMPLETED"
      (Some (mkResource Undefined (Str "I-SUB0") (Some "49.00"))) in
  let st' :=
    (processEvent (31 * day) true event (Sample.store CANCELLED false true 10)).2
  in
  subscriptions st'
  = [mkSubscription 0 0 (Some "I-SUB0") ACTIVE (Some (31 * day))
       (Some (61 * day)) None None false]
  ∧ outbox st' = [PaymentReceipt 0 "49.00" "Starter"].
Proof.
  destruct (payment_completed_renews (Sample.store CANCELLED false true 10)
              (31 * day) true
              (mkWebhook "evt-3" "PAYMENT.SALE.COMPLETED"
                 (Some (mkResource Undefined (Str "I-SUB0") (Some "49.00"))))
              (mkResource Undefined (Str "I-SUB0") (Some "49.00"))
              "I-SUB0" "49.00"
              0%nat (Sample.subscription CANCELLED false) Sample.starter
              eq_refl eq_refl eq_refl eq_refl eq_refl eq_refl)
    as [Hsubs Hmail].
  split; [exact Hsubs|].
  exact (Hmail (ex_intro _ (mkUser "owner@example.com") eq_refl)).
Defined.

(** The ACTIVE subscription stays ACTIVE; its owner gets the mail. *)
Lemma payment_failed_only_mails_witness :
  let event :=
    mkWebhook "evt-4" "BILLING.SUBSCRIPTION.PAYMENT.FAILED"
      (Some (mkResource (Str "I-SUB0") Undefined None)) in
  let st := Sample.store ACTIVE false true 10 in
  let st' := (processEvent 7 true event st).2 in
  subscriptions st' = subscriptions st
  ∧ usageTracking st' = usageTracking st
  ∧ outbox st' = [PaymentFailedEmail 0].
Proof.
  destruct (payment_failed_only_mails (Sample.store ACTIVE false true 10) 7
              true
              (mkWebhook "evt-4" "BILLING.SUBSCRIPTION.PAYMENT.FAILED"
                 (Some (mkResource (Str "I-SUB0") Undefined None)))
              eq_refl) as (Hsubs & Husage & Hmail).
  split; [exact Hsubs|]. split; [exact Husage|].
  exact (Hmail (mkResource (Str "I-SUB0") Undefined None) "I-SUB0" 0%nat
           (Sample.subscription ACTIVE false) eq_refl eq_refl eq_refl
           (ex_intro _ (mkUser "owner@example.com") eq_refl)).
Defined.

(** * Further properties of the rollover pass *)

Lemma getCurrentPeriodUsage_ok st now id sub :
  subscriptions st !! id = Some sub →
  ∃ summary, getCurrentPeriodUsage now id st = (Ok summary, st).
Proof.
  intros Hsub.
  unfold getCurrentPeriodUsage, subscription_findUnique, plan_features,
    bind, gets, ret. simpl. rewrite Hsub. eauto.
Qed.

Lemma forEach_cons_state {A} (x : A) rest body st :
  (body x st).1 = Ok tt →
  (forEach (x :: rest) body st).2 = (forEach rest body (body x st).2).2.
Proof.
  intros Hok. simpl. unfold bind.
  destruct (body x st) as [[[]|e] st1]; simpl in *; [done|discriminate].
Qed.

Section RolloverRows.
Context `{DateFns}.

(** The row a renewal writes. *)
Lemma resetOne_subscriptions now id s plan st :
  subscriptions (resetOne now (id, s, plan) st).2
  = match subscriptions st !! id with
    | Some current =>
        <[id := set_period None now
                  (periodEndFor (plan_billingPeriod plan) now) current]>
          (subscriptions st)
    | None => subscriptions st
    end.
Proof.
  unfold resetOne.
  destruct (subscriptions st !! id) as [current|] eqn:Hrow.
  - destruct (getCurrentPeriodUsage_ok st now id current Hrow)
      as [summary Husage].
    unfold tryCatch, bind at 1. rewrite Husage.
    unfold bind at 1, subscription_update. rewrite Hrow.
    match goal with
    | |- context [bind ?m ?k ?st1] =>
        assert (Hrest : preserves subscriptions (bind m k));
        [|specialize (Hrest st1); destruct (bind m k st1) as [[[]|e] st2]]
    end; simpl in *; try exact Hrest.
    apply preserves_bind; [unfold resetQuotas, subscription_findUnique; frame|].
    intros _. apply preserves_bind; [by apply initializeUsage_preserves|].
    intros _. by apply send_preserves.
  - unfold tryCatch, bind at 1, getCurrentPeriodUsage,
      subscription_findUnique.
    unfold bind at 1, gets. simpl. by rewrite Hrow.
Qed.

Lemma resetOne_ok now entry st : (resetOne now entry st).1 = Ok tt.
Proof. destruct entry as [[id s] plan]. apply swallowed. Qed.

(** A pass over [entries] leaves the rows it does not name alone. *)
Lemma forEach_resetOne_other now entries st j :
  j ∉ (λ e : nat * Subscription * SubscriptionPlan, e.1.1) <$> entries →
  subscriptions (forEach entries (resetOne now) st).2 !! j
  = subscriptions st !! j.
Proof.
  revert st. induction entries as [|[[id s] plan] rest IH]; intros st Hnotin;
    [done|].
  rewrite fmap_cons in Hnotin. apply not_elem_of_cons in Hnotin as [Hne Hrest].
  simpl in Hne.
  rewrite forEach_cons_state by apply resetOne_ok.
  rewrite IH by done. rewrite resetOne_subscriptions.
  destruct (subscriptions st !! id); [|done].
  by apply list_lookup_insert_ne.
Qed.

(** A pass over [entries] renews every row it names, when each entry holds
    the row's earlier content and the entries of one row agree. *)
Lemma forEach_resetOne_named now entries :
  (∀ id s plan s' plan',
     (id, s, plan) ∈ entries → (id, s', plan') ∈ entries →
     s = s' ∧ plan = plan') →
  ∀ st,
    (∀ id s plan, (id, s, plan) ∈ entries →
       subscriptions st !! id = Some s
       ∨ subscriptions st !! id
         = Some (set_period None now
                   (periodEndFor (plan_billingPeriod plan) now) s)) →
    ∀ id s plan, (id, s, plan) ∈ entries →
      subscriptions (forEach entries (resetOne now) st).2 !! id
      = Some (set_period None now
                (periodEndFor (plan_billingPeriod plan) now) s).
Proof.
  induction entries as [|[[id0 s0] plan0] rest IH]; intros Hfun st Hrows id s
    plan Hin; [by apply elem_of_nil in Hin|].
  rewrite forEach_cons_state by apply resetOne_ok.
  set (renewed := set_period None now
                    (periodEndFor (plan_billingPeriod plan0) now) s0).
  assert (Hst1 : subscriptions (resetOne now (id0, s0, plan0) st).2
                 = <[id0 := renewed]> (subscriptions st)).
  { rewrite resetOne_subscriptions.
    destruct (Hrows id0 s0 plan0) as [-> | ->]; [apply elem_of_cons; by left|..];
      reflexivity. }
  assert (Hlt : (id0 < length (subscriptions st))%nat).
  { destruct (Hrows id0 s0 plan0) as [Hl | Hl]; [apply elem_of_cons; by left|..];
      by eapply lookup_lt_Some. }
  assert (Hrest : ∀ id s plan, (id, s, plan) ∈ rest →
            subscriptions (forEach rest (resetOne now)
                             (resetOne now (id0, s0, plan0) st).2).2 !! id
            = Some (set_period None now
                      (periodEndFor (plan_billingPeriod plan) now) s)).
  { apply IH.
    - intros i a p a' p' Ha Ha'. apply (Hfun i); apply elem_of_cons; by right.
    - intros i a p Ha. rewrite Hst1.
      destruct (decide (i = id0)) as [->|Hne].
      + destruct (Hfun id0 a p s0 plan0) as [-> ->];
          [apply elem_of_cons; by right | apply elem_of_cons; by left|].
        right. by apply list_lookup_insert_eq.
      + rewrite list_lookup_insert_ne by done.
        apply Hrows. apply elem_of_cons. by right. }
  apply elem_of_cons in Hin as [Heq | Hin]; [|by apply Hrest].
  inversion Heq; subst id s plan.
  destruct (decide (id0 ∈ (λ e : nat * Subscription * SubscriptionPlan,
                             e.1.1) <$> rest)) as [Hnamed | Hnotin].
  - apply list_elem_of_fmap in Hnamed as ([[i a] p] & Hid & Ha).
    simpl in Hid. subst i.
    destruct (Hfun id0 a p s0 plan0) as [-> ->];
      [apply elem_of_cons; by right | apply elem_of_cons; by left|].
    by apply Hrest.
  - rewrite forEach_resetOne_other by done. rewrite Hst1.
    by apply list_lookup_insert_eq.
Qed.

(** What [mapM] over the selected rows returns: the rows with their plans,
    or an exception; the store is not written. *)
Lemma include_plans_spec rows st :
  match mapM (λ row : nat * Subscription,
                let* plan := include_plan (sub_planId row.2) in
                ret (row.1, row.2, plan)) rows st with
  | (Ok entries, st') =>
      st' = st
      ∧ ∀ id s plan, (id, s, plan) ∈ entries ↔
          ((id, s) ∈ rows ∧ subscriptionPlans st !! sub_planId s = Some plan)
  | (Thrown _, st') =>
      st' = st
      ∧ ∃ id s, (id, s) ∈ rows ∧ subscriptionPlans st !! sub_planId s = None
  end.
Proof.
  induction rows as [|[id0 s0] rest IH]; simpl.
  - split; [done|]. intros id s plan. split.
    + intros Hin. by apply elem_of_nil in Hin.
    + intros [Hin _]. by apply elem_of_nil in Hin.
  - unfold bind at 1 2, include_plan, bind at 1, gets, ret, throw at 1. simpl.
    destruct (subscriptionPlans st !! sub_planId s0) as [plan0|] eqn:Hplan0;
      simpl.
    + unfold bind at 1.
      destruct (mapM _ rest st) as [[entries|e] st'];
        destruct IH as [-> IH]; simpl.
      * split; [done|]. intros id s plan.
        rewrite !elem_of_cons, IH. split.
        -- intros [Heq | [Hin Hplan]]; [inversion Heq; subst; auto|auto].
        -- intros [[Heq | Hin] Hplan]; [inversion Heq; subst|]; [left|right];
             [congruence|auto].
      * split; [done|]. destruct IH as (id & s & Hin & Hnone).
        exists id, s. split; [apply elem_of_cons; by right|done].
    + split; [done|]. exists id0, s0. split; [apply elem_of_cons; by left|done].
Qed.

End RolloverRows.

Section RolloverPass.
Context `{DateFns}.

(** X19.  The rollover pass touches only the subscriptions it selected: a
    subscription that is not ACTIVE, or whose period does not end on the day
    of the run, has after the pass the row it had before, whatever happens
    to the other subscriptions. *)
Theorem rollover_leaves_other_subscriptions now st id s :
  subscriptions st !! id = Some s →
  expiresToday now s = false →
  subscriptions (runRolloverPass now st) !! id = Some s.
Proof.
  intros Hrow Hstays.
  unfold runRolloverPass, resetMonthlyQuotas, tryCatch.
  unfold bind at 1, gets. unfold bind at 1.
  pose proof (include_plans_spec
                (find_many (expiresToday now) (subscriptions st)) st) as Hspec.
  destruct (mapM _ (find_many (expiresToday now) (subscriptions st)) st)
    as [[entries|e] st'].
  - destruct Hspec as [-> Hentries].
    assert (Hnotin : id ∉ (λ e : nat * Subscription * SubscriptionPlan,
                             e.1.1) <$> entries).
    { intros Hin. apply list_elem_of_fmap in Hin as ([[i r] p] & Hid & Hin).
      simpl in Hid. subst i.
      apply Hentries in Hin as [Hin _].
      apply find_many_In in Hin as [Hr Hexp]. congruence. }
    pose proof (forEach_resetOne_other now entries st id Hnotin) as Hsame.
    destruct (forEach entries (resetOne now) st) as [[[]|e] st2];
      simpl in *; congruence.
  - destruct Hspec as [-> _]. exact Hrow.
Qed.

(** X20.  When every selected subscription has its plan, the pass gives
    each subscription that is ACTIVE and whose period ends on the day of the
    run a period that starts at the time of the run and lasts one billing
    period of its plan, and changes nothing else of its row; a failure of
    the counters or of the report mail of one subscription stops neither
    its renewal nor that of the others. *)
Theorem rollover_renews_every_expiring_subscription now st id s plan :
  (∀ i r, subscriptions st !! i = Some r → expiresToday now r = true →
          is_Some (subscriptionPlans st !! sub_planId r)) →
  subscriptions st !! id = Some s →
  expiresToday now s = true →
  subscriptionPlans st !! sub_planId s = Some plan →
  subscriptions (runRolloverPass now st) !! id
  = Some (mkSubscription (sub_userId s) (sub_planId s)
            (sub_paypalSubscriptionId s) (sub_status s) (Some now)
            (Some (periodEndFor (plan_billingPeriod plan) now))
            (sub_cancelledAt s) (sub_cancellationReason s)
            (sub_cancelAtPeriodEnd s)).
Proof.
  intros Hplans Hrow Hexp Hplan.
  unfold runRolloverPass, resetMonthlyQuotas, tryCatch.
  unfold bind at 1, gets. unfold bind at 1.
  pose proof (include_plans_spec
                (find_many (expiresToday now) (subscriptions st)) st) as Hspec.
  destruct (mapM _ (find_many (expiresToday now) (subscriptions st)) st)
    as [[entries|e] st'].
  - destruct Hspec as [-> Hentries].
    assert (Hnamed :
      subscriptions (forEach entries (resetOne now) st).2 !! id
      = Some (set_period None now
                (periodEndFor (plan_billingPeriod plan) now) s)).
    { apply forEach_resetOne_named.
      - intros i a p a' p' Ha Ha'.
        apply Hentries in Ha as [Ha Hp]. apply Hentries in Ha' as [Ha' Hp'].
        apply find_many_In in Ha as [Ha _]. apply find_many_In in Ha' as [Ha' _].
        assert (a = a') by congruence. subst a'. split; [done|congruence].
      - intros i a p Ha. left.
        apply Hentries in Ha as [Ha _]. by apply find_many_In in Ha as [Ha _].
      - apply Hentries. split; [|done]. by apply find_many_complete. }
    destruct (forEach entries (resetOne now) st) as [[[]|e] st2];
      simpl in *; exact Hnamed.
  - destruct Hspec as [_ (i & r & Hin & Hnone)].
    apply find_many_In in Hin as [Hr Hexp'].
    destruct (Hplans i r Hr Hexp') as [p Hp]. congruence.
Qed.

End RolloverPass.

(** X19, on a run in the middle of the period of the only subscription. *)
Lemma rollover_leaves_other_subscriptions_witness :
  subscriptions
    (runRolloverPass (H := flatCalendar) (12 * day)
       (Sample.store ACTIVE false true 10)) !! 0%nat
  = Some (Sample.subscription ACTIVE false).
Proof.
  exact (rollover_leaves_other_subscriptions (H := flatCalendar) (12 * day)
           (Sample.store ACTIVE false true 10) 0%nat
           (Sample.subscription ACTIVE false) eq_refl eq_refl).
Defined.

(** X20, on a run on the day the period of the only subscription ends. *)
Lemma rollover_renews_every_expiring_subscription_witness :
  subscriptions
    (runRolloverPass (H := flatCalendar) (30 * day)
       (Sample.store ACTIVE false true 10)) !! 0%nat
  = Some (mkSubscription 0 0 (Some "I-SUB0") ACTIVE (Some (30 * day))
            (Some (60 * day)) None None false).
Proof.
  refine (rollover_renews_every_expiring_subscription (H := flatCalendar)
            (30 * day) (Sample.store ACTIVE false true 10) 0%nat
            (Sample.subscription ACTIVE false) Sample.starter
            _ eq_refl eq_refl eq_refl).
  intros [|i] r Hr _.
  - injection Hr as <-. exists Sample.starter. reflexivity.
  - destruct i; discriminate Hr.
Defined.

(** * The basic risk score *)

(** X21.  The basic risk score lies between 15 and 100: the upper clamp is
    needed (all four bonuses give 110), the lower one is never reached, and
    the score is a multiple of 5. *)
Theorem calculateBasicRiskScore_range companyData :
  15 <= calculateBasicRiskScore companyData <= 100
  ∧ (calculateBasicRiskScore companyData mod 5 = 0).
Proof.
  unfold calculateBasicRiskScore.
  destruct (exceeds (yearsInBusiness companyData) 5),
    (exceeds (annualRevenue companyData) 1000000),
    (opt_eqb String.eqb (paymentHistory companyData) (Some "excellent")),
    (exceeds (creditScore companyData) 700),
    (exceeds (latePayments companyData) 2),
    (exceeds (outstandingDebts companyData) 500000);
    vm_compute; intuition discriminate.
Qed.

(** X22.  A company with more than two late payments and more than 500000
    of outstanding debts is never rated [Low Risk], whatever its other
    figures; with only one of the two deductions it can be. *)
Theorem two_deductions_never_low_risk companyData :
  exceeds (latePayments companyData) 2 = true →
  exceeds (outstandingDebts companyData) 500000 = true →
  getRiskCategory (calculateBasicRiskScore companyData) ≠ "Low Risk"
  ∧ calculateBasicRiskScore companyData <= 75.
Proof.
  intros Hlate Hdebts. unfold calculateBasicRiskScore.
  rewrite Hlate, Hdebts.
  destruct (exceeds (yearsInBusiness companyData) 5),
    (exceeds (annualRevenue companyData) 1000000),
    (opt_eqb String.eqb (paymentHistory companyData) (Some "excellent")),
    (exceeds (creditScore companyData) 700);
    vm_compute; split; discriminate.
Qed.

Lemma two_deductions_never_low_risk_witness :
  getRiskCategory
    (calculateBasicRiskScore
       (mkCompany (Some (inject_Z 12)) (Some (inject_Z 2000000))
          (Some "excellent") (Some (inject_Z 750)) (Some (inject_Z 3))
          (Some (inject_Z 600000))))
  ≠ "Low Risk"
  ∧ calculateBasicRiskScore
      (mkCompany (Some (inject_Z 12)) (Some (inject_Z 2000000))
         (Some "excellent") (Some (inject_Z 750)) (Some (inject_Z 3))
         (Some (inject_Z 600000))) <= 75.
Proof.
  exact (two_deductions_never_low_risk
           (mkCompany (Some (inject_Z 12)) (Some (inject_Z 2000000))
              (Some "excellent") (Some (inject_Z 750)) (Some (inject_Z 3))
              (Some (inject_Z 600000)))
           eq_refl eq_refl).
Defined.

(** * The quota warning job *)

Lemma set_outbox_twice f g st :
  set_outbox f (set_outbox g st) = set_outbox (λ o, f (g o)) st.
Proof. reflexivity. Qed.

Lemma set_outbox_same st : set_outbox (λ _, outbox st) st = st.
Proof. by destruct st. Qed.

Lemma only_mails_ret {A} (a : A) : only_mails (ret a).
Proof.
  intros st. exists (Ok a), []. intros sent.
  unfold ret. by rewrite app_nil_r.
Qed.

Lemma only_mails_throw {A} message : only_mails (throw (A := A) message).
Proof.
  intros st. exists (Thrown message), []. intros sent.
  unfold throw. by rewrite app_nil_r.
Qed.

Lemma only_mails_gets {A} (f : Store → A) :
  (∀ g st, f (set_outbox g st) = f st) → only_mails (gets f).
Proof.
  intros Hf st. exists (Ok (f st)), []. intros sent.
  unfold gets. by rewrite Hf, app_nil_r.
Qed.

Lemma only_mails_bind {A B} (m : M A) (k : A → M B) :
  only_mails m → (∀ a, only_mails (k a)) → only_mails (bind m k).
Proof.
  intros Hm Hk st. destruct (Hm st) as ([a|e] & mails & Hrun).
  - destruct (Hk a st) as (r & mails' & Hrun').
    exists r, (mails ++ mails'). intros sent.
    unfold bind. rewrite Hrun, Hrun'. by rewrite app_assoc.
  - exists (Thrown e), mails. intros sent. unfold bind. by rewrite Hrun.
Qed.

Lemma only_mails_tryCatch {A} (body : M A) handler :
  only_mails body → (∀ e, only_mails (handler e)) →
  only_mails (tryCatch body handler).
Proof.
  intros Hm Hk st. destruct (Hm st) as ([a|e] & mails & Hrun).
  - exists (Ok a), mails. intros sent. unfold tryCatch. by rewrite Hrun.
  - destruct (Hk e st) as (r & mails' & Hrun').
    exists r, (mails ++ mails'). intros sent.
    unfold tryCatch. rewrite Hrun, Hrun'. by rewrite app_assoc.
Qed.

Lemma only_mails_forEach {A} (xs : list A) body :
  (∀ x, only_mails (body x)) → only_mails (forEach xs body).
Proof.
  intros Hbody. induction xs as [|x rest IH]; simpl.
  - apply only_mails_ret.
  - apply only_mails_bind; [apply Hbody | intros _; apply IH].
Qed.

Lemma only_mails_mapM {A B} (f : A → M B) xs :
  (∀ x, only_mails (f x)) → only_mails (mapM f xs).
Proof.
  intros Hf. induction xs as [|x rest IH]; simpl.
  - apply only_mails_ret.
  - apply only_mails_bind; [apply Hf|]. intros y.
    apply only_mails_bind; [apply IH|]. intros ys. apply only_mails_ret.
Qed.

Lemma only_mails_send mail userId : only_mails (send mail userId).
Proof.
  intros st. unfold send, getUserEmail, bind, gets, modify, ret, throw.
  destruct (users st !! userId) as [u|] eqn:Hu.
  - exists (Ok tt), [mail]. intros sent. simpl. by rewrite Hu.
  - exists (Thrown "User not found"), []. intros sent. simpl.
    rewrite Hu. by rewrite app_nil_r.
Qed.

Lemma only_mails_getCurrentPeriodUsage now id :
  only_mails (getCurrentPeriodUsage now id).
Proof.
  unfold getCurrentPeriodUsage, subscription_findUnique, plan_features.
  apply only_mails_bind; [by apply only_mails_gets|]. intros [sub|].
  - apply only_mails_bind; [by apply only_mails_gets|]. intros features.
    apply only_mails_bind; [by apply only_mails_gets|]. intros usageRows.
    apply only_mails_ret.
  - apply only_mails_throw.
Qed.

Lemma only_mails_warnFeature userId usage feature :
  only_mails (warnFeature userId usage feature).
Proof.
  unfold warnFeature, sendQuotaExceededEmail, sendQuotaWarningEmail.
  repeat match goal with
         | |- only_mails (match ?x with _ => _ end) => destruct x
         end;
    auto using only_mails_send, only_mails_ret.
Qed.

(** X23.  The quota warning job never fails and writes nothing but mails:
    subscriptions, counters and the event ledger are as before.  Which
    mails it sends does not depend on the mails sent earlier: the job keeps
    no record of a warning, so a run on an unchanged store sends every
    warning of the run before once more. *)
Theorem sendQuotaWarnings_has_no_memory now st :
  ∃ mails,
    (∀ sent,
       sendQuotaWarnings now (set_outbox (λ _, sent) st)
       = (Ok tt, set_outbox (λ _, sent ++ mails) st))
    ∧ (sendQuotaWarnings now st).2
      = set_outbox (λ sent, sent ++ mails) st
    ∧ (sendQuotaWarnings now (sendQuotaWarnings now st).2).2
      = set_outbox (λ sent, sent ++ mails ++ mails) st.
Proof.
  assert (Hjob : only_mails (sendQuotaWarnings now)).
  { unfold sendQuotaWarnings.
    apply only_mails_tryCatch; [|intros; apply only_mails_ret].
    apply only_mails_bind; [by apply only_mails_gets|]. intros rows.
    apply only_mails_bind.
    - apply only_mails_mapM. intros row. unfold include_plan.
      apply only_mails_bind.
      + apply only_mails_bind; [by apply only_mails_gets|].
        intros [plan|]; [apply only_mails_ret | apply only_mails_throw].
      + intros _. apply only_mails_bind; [by apply only_mails_gets|].
        intros features. apply only_mails_ret.
    - intros entries. apply only_mails_forEach. intros entry.
      apply only_mails_tryCatch; [|intros; apply only_mails_ret].
      apply only_mails_bind; [apply only_mails_getCurrentPeriodUsage|].
      intros usage. apply only_mails_forEach. intros feature.
      apply only_mails_warnFeature. }
  destruct (Hjob st) as (r & mails & Hrun).
  assert (Hr : r = Ok tt).
  { pose proof (swallowed
      (let* rows :=
         gets (λ st,
           find_many (λ s, status_eqb (sub_status s) ACTIVE)
             (subscriptions st)) in
       let* activeSubscriptions :=
         mapM (λ row : nat * Subscription,
                 await include_plan (sub_planId row.2) in
                 let* features := gets (limitedFeatures (sub_planId row.2)) in
                 ret (row.1, row.2, features))
              rows in
       forEach activeSubscriptions
         (λ entry : nat * Subscription * list FeatureWithComponent,
            tryCatch
              (let* usage := getCurrentPeriodUsage now entry.1.1 in
               forEach entry.2
                 (warnFeature (sub_userId entry.1.2) usage))
              (λ _, ret tt)))
      (set_outbox (λ _, []) st)) as Hok.
    fold (sendQuotaWarnings now) in Hok. by rewrite Hrun in Hok. }
  subst r.
  assert (Honce : (sendQuotaWarnings now st).2
                  = set_outbox (λ sent, sent ++ mails) st).
  { rewrite <- (set_outbox_same st) at 1. by rewrite Hrun. }
  exists mails. split; [exact Hrun|]. split; [exact Honce|].
  rewrite Honce.
  change (set_outbox (λ sent, sent ++ mails) st)
    with (set_outbox (λ _, outbox st ++ mails) st).
  rewrite Hrun. simpl. unfold set_outbox. simpl. by rewrite app_assoc.
Qed.

(** The job on a subscription that has used 85 of 100: two runs, two
    warnings. *)
Example sendQuotaWarnings_twice :
  outbox
    (sendQuotaWarnings (12 * day)
       (sendQuotaWarnings (12 * day)
          (Sample.store ACTIVE false true 85)).2).2
  = [QuotaWarningEmail 0 "Invoice OCR" 85 100 80;
     QuotaWarningEmail 0 "Invoice OCR" 85 100 80].
Proof. vm_compute. reflexivity. Qed.
